(** * mbtool backup/restore engine (mbtool/backup.cpp)

    A shallow embedding of the backup and restore procedures of mbtool and
    the properties its design document states about them.

    Pure helpers (target parsing, backup-name validation) are plain
    functions.  Procedures that talk to the outside world (stat, mount,
    archive I/O, logging, ...) are functions from the history of the calls
    made so far to a result and the list of calls they make themselves; the
    outcome of every call is chosen by an environment that may look at the
    whole history. *)

From Stdlib Require Import ZArith List String Ascii Bool Lia.
From Stdlib Require Import Strings.Byte.
Import ListNotations.
Local Open Scope string_scope.
Local Open Scope Z_scope.

(** ** Constants of backup.cpp *)

Definition BACKUP_MNT_DIR : string := "/mb_mnt".

Definition BACKUP_TARGET_SYSTEM : Z := 0x1.
Definition BACKUP_TARGET_CACHE : Z := 0x2.
Definition BACKUP_TARGET_DATA : Z := 0x4.
Definition BACKUP_TARGET_BOOT : Z := 0x8.
Definition BACKUP_TARGET_CONFIG : Z := 0x10.
Definition BACKUP_TARGET_ALL : Z :=
  Z.lor BACKUP_TARGET_SYSTEM
    (Z.lor BACKUP_TARGET_CACHE
       (Z.lor BACKUP_TARGET_DATA
          (Z.lor BACKUP_TARGET_BOOT BACKUP_TARGET_CONFIG))).

Definition BACKUP_NAME_SYSTEM : string := "system.tar".
Definition BACKUP_NAME_CACHE : string := "cache.tar".
Definition BACKUP_NAME_DATA : string := "data.tar".
Definition BACKUP_NAME_BOOT_IMAGE : string := "boot.img".
Definition BACKUP_NAME_CONFIG : string := "config.json".
Definition BACKUP_NAME_THUMBNAIL : string := "thumbnail.webp".

Inductive Result : Type :=
| SUCCEEDED
| FAILED
| FILES_MISSING
| BOOT_IMAGE_UNPATCHED.

Definition Result_eqb (a b : Result) : bool :=
  match a, b with
  | SUCCEEDED, SUCCEEDED => true
  | FAILED, FAILED => true
  | FILES_MISSING, FILES_MISSING => true
  | BOOT_IMAGE_UNPATCHED, BOOT_IMAGE_UNPATCHED => true
  | _, _ => false
  end.

(** ** Strings: the std::string operations the code uses *)

(** [std::string::find(needle)]: the index of the first occurrence, [None]
    for [npos]. *)
Fixpoint find (needle s : string) : option nat :=
  if String.prefix needle s then Some 0%nat
  else match s with
       | EmptyString => None
       | String _ t => option_map S (find needle t)
       end.

(** [std::string::find(char)]. *)
Fixpoint find_char (c : ascii) (s : string) : option nat :=
  match s with
  | EmptyString => None
  | String d t => if Ascii.eqb d c then Some 0%nat else option_map S (find_char c t)
  end.

Definition is_npos (r : option nat) : bool :=
  match r with None => true | Some _ => false end.

(** [name.empty()]. *)
Definition empty (s : string) : bool :=
  match s with EmptyString => true | String _ _ => false end.

(** [name[0]]; on the empty string operator[] yields the terminating NUL. *)
Definition char0 (s : string) : ascii :=
  match s with EmptyString => Ascii.zero | String c _ => c end.

(** Modelled from the spec: [util::split] of util/string.cpp, which the
    design describes as splitting the target text on commas.  Every
    separator ends a token, so [n] separators give [n + 1] tokens and the
    empty text gives the single empty token. *)
Fixpoint split_on (delim : ascii) (s : string) : list string :=
  match s with
  | EmptyString => [EmptyString]
  | String c t =>
      if Ascii.eqb c delim then EmptyString :: split_on delim t
      else match split_on delim t with
           | tok :: rest => String c tok :: rest
           | [] => [String c EmptyString]
           end
  end.

(** Modelled from the spec: [util::split(str, delim)] for the one-character
    delimiter the engine passes. *)
Definition split (s delim : string) : list string :=
  split_on (char0 delim) s.

(** ** Target set *)

(** The loop of [parse_targets_string]: [result] is the accumulator, an
    unknown token returns 0 at once. *)
Fixpoint parse_targets_list (targets_list : list string) (result : Z) : Z :=
  match targets_list with
  | [] => result
  | target :: rest =>
      if (target =? "all")%string then
        parse_targets_list rest (Z.lor result BACKUP_TARGET_ALL)
      else if (target =? "system")%string then
        parse_targets_list rest (Z.lor result BACKUP_TARGET_SYSTEM)
      else if (target =? "cache")%string then
        parse_targets_list rest (Z.lor result BACKUP_TARGET_CACHE)
      else if (target =? "data")%string then
        parse_targets_list rest (Z.lor result BACKUP_TARGET_DATA)
      else if (target =? "boot")%string then
        parse_targets_list rest (Z.lor result BACKUP_TARGET_BOOT)
      else if (target =? "config")%string then
        parse_targets_list rest (Z.lor result BACKUP_TARGET_CONFIG)
      else 0
  end.

Definition parse_targets_string (targets : string) : Z :=
  parse_targets_list (split targets ",") 0.

(** The bits a recognised token stands for ([None]: not a target name). *)
Definition target_bits (target : string) : option Z :=
  if (target =? "all")%string then Some BACKUP_TARGET_ALL
  else if (target =? "system")%string then Some BACKUP_TARGET_SYSTEM
  else if (target =? "cache")%string then Some BACKUP_TARGET_CACHE
  else if (target =? "data")%string then Some BACKUP_TARGET_DATA
  else if (target =? "boot")%string then Some BACKUP_TARGET_BOOT
  else if (target =? "config")%string then Some BACKUP_TARGET_CONFIG
  else None.

(** ** Backup names *)

Definition is_valid_backup_name (name : string) : bool :=
  negb (empty name)
  && negb (Ascii.eqb (char0 name) ".")
  && is_npos (find ".." name)
  && is_npos (find_char "/" name).

(** [sub] occurs somewhere in [s]. *)
Definition occurs_in (sub s : string) : Prop :=
  exists pre post, s = pre ++ sub ++ post.

(** ** The outside world

    Everything below the engine is a collaborator: the file system, the
    mount table, the archive and boot-image codecs, the logger.  A call to a
    collaborator is recorded as an [Event] that carries its arguments and
    what it returned. *)

(** [stat]: success, failure with [errno == ENOENT], failure otherwise. *)
Inductive StatResult : Type := StatOk | StatENOENT | StatError.

(** [util::mkdir_recursive]: [true], [false] with [errno == EEXIST], [false]
    with another errno. *)
Inductive MkdirResult : Type := MkdirOk | MkdirEEXIST | MkdirError.

(** [CreateImageResult] of image.h; the engine only asks whether it is
    [SUCCEEDED]. *)
Inductive CreateImageResult : Type :=
| CreateImageSUCCEEDED
| CreateImageFAILED
| CreateImageNOT_ENOUGH_SPACE.

Inductive LogLevel : Type := LOGE | LOGW | LOGI.

(** Modelled from the spec: [mbp::BootImage::Type] of libmbp, the type of a
    firmware container.  The engine only distinguishes the Loki type. *)
Inductive BootImageType : Type := TypeAndroid | TypeLoki | TypeBump | TypeSonyElf.

(** Modelled from the spec: [mbp::BootImage] of libmbp: a firmware container
    with a ramdisk payload, a bypass-reference (aboot) image, the type it was
    loaded as and the type it will be written as. *)
Record BootImage : Type := mkBootImage {
  ramdiskImage : list byte;
  abootImage : list byte;
  wasType : BootImageType;
  targetType : BootImageType;
  otherImages : list byte
}.

(** Modelled from the spec: the setters of [mbp::BootImage] replace one part
    of the container and leave the others. *)
Definition setRamdiskImage (bi : BootImage) (data : list byte) : BootImage :=
  mkBootImage data (abootImage bi) (wasType bi) (targetType bi) (otherImages bi).

Definition setAbootImage (bi : BootImage) (data : list byte) : BootImage :=
  mkBootImage (ramdiskImage bi) data (wasType bi) (targetType bi) (otherImages bi).

Definition setTargetType (bi : BootImage) (t : BootImageType) : BootImage :=
  mkBootImage (ramdiskImage bi) (abootImage bi) (wasType bi) t (otherImages bi).

Definition is_Loki (t : BootImageType) : bool :=
  match t with TypeLoki => true | _ => false end.

(** Modelled from the spec: [mbp::CpioFile] of libmbp: the ramdisk archive
    as the list of its entries, in archive order. *)
Record CpioEntry : Type := mkCpioEntry {
  entry_name : string;
  entry_perms : Z;
  entry_data : list byte
}.

Definition CpioFile : Type := list CpioEntry.

(** Modelled from the spec: [CpioFile::remove] removes any existing entry of
    the given name. *)
Definition cpio_remove (cpio : CpioFile) (name : string) : CpioFile :=
  filter (fun e => negb (entry_name e =? name)%string) cpio.

(** Modelled from the spec: [CpioFile::addFile] inserts a new entry of the
    given name with the given content and permission mode. *)
Definition cpio_addFile (cpio : CpioFile) (data : list byte) (name : string)
    (perms : Z) : CpioFile :=
  (cpio ++ [mkCpioEntry name perms data])%list.


Inductive Event : Type :=
| EvLog (level : LogLevel) (fmt : string) (args : list string)
| EvStat (path : string) (r : StatResult)
| EvMkdirRecursive (path : string) (mode : Z) (r : MkdirResult)
| EvMkdirParent (path : string) (mode : Z) (r : bool)
| EvFsckExt4Image (image : string)
| EvMount (source target fstype : string) (flags : Z) (data : string) (r : bool)
| EvUmount (target : string) (r : bool)
| EvRmdir (path : string)
| EvOpendir (directory : string) (r : bool)
| EvReaddir (directory : string) (names : list string) (err : bool)
| EvTarCreate (output_file directory : string) (contents : list string) (r : bool)
| EvTarExtract (input_file directory : string) (patterns : list string) (r : bool)
| EvWipeDirectory (directory : string) (exclusions : list string) (r : bool)
| EvCreateExt4Image (image : string) (size : Z) (r : CreateImageResult)
| EvCopyFile (source target : string) (flags : Z) (r : bool)
| EvBootImageLoadFile (path : string) (r : option BootImage)
| EvFileReadAll (path : string) (r : option (list byte))
| EvBootImageCreateFile (path : string) (bi : BootImage) (r : bool)
| EvGetSystemPartition (r : string)
| EvMountGetTotalSize (path : string) (r : Z)
| EvFixMultibootPermissions.

(** The environment answers every call, given the history of events so far
    (oldest first).  The two ramdisk codec functions work on memory only. *)
Record Env : Type := mkEnv {
  env_stat : list Event -> string -> StatResult;
  env_mkdir_recursive : list Event -> string -> Z -> MkdirResult;
  env_mkdir_parent : list Event -> string -> Z -> bool;
  env_mount : list Event -> string -> string -> string -> Z -> string -> bool;
  env_umount : list Event -> string -> bool;
  env_opendir : list Event -> string -> bool;
  env_readdir : list Event -> string -> list string * bool;
  env_tar_create : list Event -> string -> string -> list string -> bool;
  env_tar_extract : list Event -> string -> string -> list string -> bool;
  env_wipe_directory : list Event -> string -> list string -> bool;
  env_create_ext4_image : list Event -> string -> Z -> CreateImageResult;
  env_copy_file : list Event -> string -> string -> Z -> bool;
  env_bootimage_loadFile : list Event -> string -> option BootImage;
  env_file_read_all : list Event -> string -> option (list byte);
  env_bootimage_createFile : list Event -> string -> BootImage -> bool;
  env_get_system_partition : list Event -> string;
  env_mount_get_total_size : list Event -> string -> Z;
  env_cpio_load : list byte -> option CpioFile;
  env_cpio_createData : CpioFile -> option (list byte)
}.

(** Macros of multiboot.h and image.h, taken as parameters. *)
Record Constants : Type := mkConstants {
  MULTIBOOT_DIR : string;
  DEFAULT_IMAGE_SIZE : Z;
  ABOOT_PARTITION : string
}.

(** The ROM descriptor ([Rom] of roms.h): the identifier, the resolved paths
    its accessors return and the image-mode flags. *)
Record Rom : Type := mkRom {
  id : string;
  full_system_path : string;
  full_cache_path : string;
  full_data_path : string;
  boot_image_path : string;
  config_path : string;
  thumbnail_path : string;
  system_is_image : bool;
  cache_is_image : bool;
  data_is_image : bool
}.

(** ** Procedures

    A procedure maps the history so far to its return value and the events
    it emits (oldest first). *)
Definition M (A : Type) : Type := list Event -> A * list Event.

Definition ret {A : Type} (a : A) : M A := fun _ => (a, []).

Definition bind {A B : Type} (m : M A) (f : A -> M B) : M B :=
  fun h =>
    let (a, e1) := m h in
    let (b, e2) := f a (h ++ e1)%list in
    (b, (e1 ++ e2)%list).

Declare Scope proc_scope.
Delimit Scope proc_scope with proc.
Notation "x <- m ;; k" := (bind m (fun x => k))
  (at level 61, m at next level, right associativity) : proc_scope.
Notation "m ;; k" := (bind m (fun _ => k))
  (at level 61, right associativity) : proc_scope.
Local Open Scope proc_scope.

(** Octal permission modes and mount flags. *)
Definition mode_0755 : Z := 7 * 64 + 5 * 8 + 5.
Definition mode_0775 : Z := 7 * 64 + 7 * 8 + 5.
Definition mode_0664 : Z := 6 * 64 + 6 * 8 + 4.
Definition S_IRWXU : Z := 7 * 64.
Definition MS_RDONLY : Z := 1.

Definition mkdir_ok (r : MkdirResult) : bool :=
  match r with MkdirOk => true | _ => false end.

Definition errno_is_EEXIST (r : MkdirResult) : bool :=
  match r with MkdirEEXIST => true | _ => false end.

Definition stat_ok (r : StatResult) : bool :=
  match r with StatOk => true | _ => false end.

Definition create_image_succeeded (r : CreateImageResult) : bool :=
  match r with CreateImageSUCCEEDED => true | _ => false end.

(** [targets & bit]. *)
Definition has_target (targets bit : Z) : bool :=
  negb (Z.land targets bit =? 0).

Section Engine.

Variable K : Constants.
Variable env : Env.

(** *** Calls to collaborators *)

(** LOGE / LOGW / LOGI: the format string and its string arguments (the
    [strerror(errno)] argument, where there is one, is left out). *)
Definition log (level : LogLevel) (fmt : string) (args : list string) : M unit :=
  fun _ => (tt, [EvLog level fmt args]).

Definition stat (path : string) : M StatResult :=
  fun h => let r := env_stat env h path in (r, [EvStat path r]).

Definition mkdir_recursive (path : string) (mode : Z) : M MkdirResult :=
  fun h => let r := env_mkdir_recursive env h path mode in
           (r, [EvMkdirRecursive path mode r]).

Definition mkdir_parent (path : string) (mode : Z) : M bool :=
  fun h => let r := env_mkdir_parent env h path mode in
           (r, [EvMkdirParent path mode r]).

Definition fsck_ext4_image (image : string) : M unit :=
  fun _ => (tt, [EvFsckExt4Image image]).

Definition mount (source target fstype : string) (flags : Z) (data : string)
    : M bool :=
  fun h => let r := env_mount env h source target fstype flags data in
           (r, [EvMount source target fstype flags data r]).

Definition umount (target : string) : M bool :=
  fun h => let r := env_umount env h target in (r, [EvUmount target r]).

Definition rmdir (path : string) : M unit :=
  fun _ => (tt, [EvRmdir path]).

Definition opendir (directory : string) : M bool :=
  fun h => let r := env_opendir env h directory in (r, [EvOpendir directory r]).

(** The whole [readdir] loop over an open directory: the names read until
    [readdir] returned null, and whether [errno] was set by then. *)
Definition readdir_all (directory : string) : M (list string * bool) :=
  fun h => let r := env_readdir env h directory in
           (r, [EvReaddir directory (fst r) (snd r)]).

Definition libarchive_tar_create (output_file directory : string)
    (contents : list string) : M bool :=
  fun h => let r := env_tar_create env h output_file directory contents in
           (r, [EvTarCreate output_file directory contents r]).

Definition libarchive_tar_extract (input_file directory : string)
    (patterns : list string) : M bool :=
  fun h => let r := env_tar_extract env h input_file directory patterns in
           (r, [EvTarExtract input_file directory patterns r]).

Definition wipe_directory (directory : string) (exclusions : list string)
    : M bool :=
  fun h => let r := env_wipe_directory env h directory exclusions in
           (r, [EvWipeDirectory directory exclusions r]).

Definition create_ext4_image (image : string) (size : Z) : M CreateImageResult :=
  fun h => let r := env_create_ext4_image env h image size in
           (r, [EvCreateExt4Image image size r]).

Definition copy_file (source target : string) (flags : Z) : M bool :=
  fun h => let r := env_copy_file env h source target flags in
           (r, [EvCopyFile source target flags r]).

Definition bootimage_loadFile (path : string) : M (option BootImage) :=
  fun h => let r := env_bootimage_loadFile env h path in
           (r, [EvBootImageLoadFile path r]).

Definition file_read_all (path : string) : M (option (list byte)) :=
  fun h => let r := env_file_read_all env h path in (r, [EvFileReadAll path r]).

Definition bootimage_createFile (bi : BootImage) (path : string) : M bool :=
  fun h => let r := env_bootimage_createFile env h path bi in
           (r, [EvBootImageCreateFile path bi r]).

Definition get_system_partition : M string :=
  fun h => let r := env_get_system_partition env h in
           (r, [EvGetSystemPartition r]).

Definition mount_get_total_size (path : string) : M Z :=
  fun h => let r := env_mount_get_total_size env h path in
           (r, [EvMountGetTotalSize path r]).

Definition fix_multiboot_permissions : M unit :=
  fun _ => (tt, [EvFixMultibootPermissions]).

(** *** Directory and image passes *)

Definition backup_directory (output_file directory : string)
    (exclusions : list string) : M bool :=
  dp <- opendir directory ;;
  if negb dp then
    log LOGE "%s: %s" [directory] ;;
    ret false
  else
    ents <- readdir_all directory ;;
    let contents :=
      filter (fun d_name =>
                negb ((d_name =? ".")%string
                      || (d_name =? "..")%string
                      || existsb (String.eqb d_name) exclusions))
             (fst ents) in
    if snd ents then
      log LOGE "%s: %s" [directory] ;;
      ret false
    else
      libarchive_tar_create output_file directory contents.

Definition restore_directory (input_file directory : string)
    (exclusions : list string) : M bool :=
  wiped <- wipe_directory directory exclusions ;;
  if negb wiped then ret false
  else libarchive_tar_extract input_file directory [].

Definition backup_image (output_file image : string)
    (exclusions : list string) : M bool :=
  made <- mkdir_recursive BACKUP_MNT_DIR mode_0755 ;;
  if negb (mkdir_ok made) && negb (errno_is_EEXIST made) then
    log LOGE "%s: %s" [BACKUP_MNT_DIR] ;;
    ret false
  else
    fsck_ext4_image image ;;
    mounted <- mount image BACKUP_MNT_DIR "ext4" MS_RDONLY "" ;;
    if negb mounted then
      log LOGE "Failed to mount %s at %s: %s" [image; BACKUP_MNT_DIR] ;;
      ret false
    else
      result <- backup_directory output_file BACKUP_MNT_DIR exclusions ;;
      unmounted <- umount BACKUP_MNT_DIR ;;
      if negb unmounted then
        log LOGE "Failed to unmount %s: %s" [BACKUP_MNT_DIR] ;;
        ret false
      else
        rmdir BACKUP_MNT_DIR ;;
        ret result.

Definition restore_image (input_file image : string) (size : Z)
    (exclusions : list string) : M bool :=
  let mount_and_restore : M bool :=
    made <- mkdir_recursive BACKUP_MNT_DIR mode_0755 ;;
    if negb (mkdir_ok made) && negb (errno_is_EEXIST made) then
      log LOGE "%s: %s" [BACKUP_MNT_DIR] ;;
      ret false
    else
      fsck_ext4_image image ;;
      mounted <- mount image BACKUP_MNT_DIR "ext4" 0 "" ;;
      if negb mounted then
        log LOGE "Failed to mount %s at %s: %s" [image; BACKUP_MNT_DIR] ;;
        ret false
      else
        result <- restore_directory input_file BACKUP_MNT_DIR exclusions ;;
        unmounted <- umount BACKUP_MNT_DIR ;;
        if negb unmounted then
          log LOGE "Failed to unmount %s: %s" [BACKUP_MNT_DIR] ;;
          ret false
        else
          rmdir BACKUP_MNT_DIR ;;
          ret result in
  parent <- mkdir_parent image S_IRWXU ;;
  if negb parent then
    log LOGE "%s: Failed to create parent directory: %s" [image] ;;
    ret false
  else
    sb <- stat image ;;
    match sb with
    | StatOk => mount_and_restore
    | StatENOENT =>
        created <- create_ext4_image image size ;;
        if negb (create_image_succeeded created) then ret false
        else mount_and_restore
    | StatError =>
        log LOGE "%s: Failed to stat: %s" [image] ;;
        ret false
    end.

(** *** Boot image *)

Definition backup_boot_image (rom : Rom) (backup_dir : string) : M Result :=
  let boot_image_path := boot_image_path rom in
  let boot_image_backup := backup_dir ++ "/" ++ BACKUP_NAME_BOOT_IMAGE in
  sb <- stat boot_image_path ;;
  if stat_ok sb then
    log LOGI "=== Backing up %s ===" [boot_image_path] ;;
    copied <- copy_file boot_image_path boot_image_backup 0 ;;
    if negb copied then ret FAILED
    else ret SUCCEEDED
  else
    log LOGW "=== %s does not exist ===" [boot_image_path] ;;
    ret FILES_MISSING.

Definition restore_boot_image (rom : Rom) (backup_dir : string) : M Result :=
  let boot_image_path := boot_image_path rom in
  let boot_image_backup := backup_dir ++ "/" ++ BACKUP_NAME_BOOT_IMAGE in
  let create (bi : BootImage) : M Result :=
    created <- bootimage_createFile bi boot_image_path ;;
    if negb created then
      log LOGE "Failed to create new boot image" [] ;;
      ret FAILED
    else ret SUCCEEDED in
  sb <- stat boot_image_backup ;;
  if negb (stat_ok sb) then
    log LOGW "=== %s does not exist ===" [boot_image_backup] ;;
    ret FILES_MISSING
  else
    log LOGI "=== Restoring to %s ===" [boot_image_path] ;;
    loaded <- bootimage_loadFile boot_image_backup ;;
    match loaded with
    | None =>
        log LOGE "Failed to load boot image" [] ;;
        ret FAILED
    | Some bi =>
        match env_cpio_load env (ramdiskImage bi) with
        | None =>
            log LOGE "Failed to load ramdisk image" [] ;;
            ret FAILED
        | Some cpio =>
            let data := list_byte_of_string (id rom) in
            let cpio := cpio_remove cpio "romid" in
            let cpio := cpio_addFile cpio data "romid" mode_0664 in
            match env_cpio_createData env cpio with
            | None =>
                log LOGE "Failed to create new ramdisk" [] ;;
                ret FAILED
            | Some new_ramdisk =>
                let bi := setRamdiskImage bi new_ramdisk in
                if is_Loki (wasType bi) then
                  aboot <- file_read_all (ABOOT_PARTITION K) ;;
                  match aboot with
                  | None =>
                      log LOGE "Failed to read aboot partition: %s" [] ;;
                      ret FAILED
                  | Some aboot_image =>
                      create (setTargetType (setAbootImage bi aboot_image) TypeLoki)
                  end
                else create bi
            end
        end
    end.

(** *** Configuration file and thumbnail *)

Definition backup_configs (rom : Rom) (backup_dir : string) : M Result :=
  let config_path := config_path rom in
  let thumbnail_path := thumbnail_path rom in
  let config_backup := backup_dir ++ "/" ++ BACKUP_NAME_CONFIG in
  let thumbnail_backup := backup_dir ++ "/" ++ BACKUP_NAME_THUMBNAIL in
  let thumbnail (result : Result) : M Result :=
    sb <- stat thumbnail_path ;;
    if stat_ok sb then
      log LOGI "=== Backing up %s ===" [thumbnail_path] ;;
      copied <- copy_file thumbnail_path thumbnail_backup 0 ;;
      if negb copied then ret FAILED
      else ret result
    else
      log LOGW "=== %s does not exist ===" [thumbnail_path] ;;
      ret FILES_MISSING in
  sb <- stat config_path ;;
  if stat_ok sb then
    log LOGI "=== Backing up %s ===" [config_path] ;;
    copied <- copy_file config_path config_backup 0 ;;
    if negb copied then ret FAILED
    else thumbnail SUCCEEDED
  else
    log LOGW "=== %s does not exist ===" [config_path] ;;
    thumbnail FILES_MISSING.

Definition restore_configs (rom : Rom) (backup_dir : string) : M Result :=
  let config_path := config_path rom in
  let thumbnail_path := thumbnail_path rom in
  let config_backup := backup_dir ++ "/" ++ BACKUP_NAME_CONFIG in
  let thumbnail_backup := backup_dir ++ "/" ++ BACKUP_NAME_THUMBNAIL in
  let thumbnail (result : Result) : M Result :=
    sb <- stat thumbnail_backup ;;
    if stat_ok sb then
      log LOGI "=== Restoring to %s ===" [thumbnail_path] ;;
      copied <- copy_file thumbnail_backup thumbnail_path 0 ;;
      if negb copied then ret FAILED
      else ret result
    else
      log LOGW "=== %s does not exist ===" [thumbnail_backup] ;;
      ret FILES_MISSING in
  sb <- stat config_backup ;;
  if stat_ok sb then
    log LOGI "=== Restoring to %s ===" [config_path] ;;
    copied <- copy_file config_backup config_path 0 ;;
    if negb copied then ret FAILED
    else thumbnail SUCCEEDED
  else
    log LOGW "=== %s does not exist ===" [config_backup] ;;
    thumbnail FILES_MISSING.

(** *** Partitions *)

Definition backup_partition (path backup_dir archive_name : string)
    (is_image : bool) (exclusions : list string) : M Result :=
  let archive := backup_dir ++ "/" ++ archive_name in
  sb <- stat path ;;
  if stat_ok sb then
    log LOGI "=== Backing up %s ===" [path] ;;
    result <- (if is_image then backup_image archive path exclusions
               else backup_directory archive path exclusions) ;;
    ret (if result then SUCCEEDED else FAILED)
  else
    log LOGW "=== %s does not exist ===" [path] ;;
    ret FILES_MISSING.

Definition restore_partition (path backup_dir archive_name : string)
    (is_image : bool) (image_size : Z) (exclusions : list string) : M Result :=
  let archive := backup_dir ++ "/" ++ archive_name in
  sb <- stat archive ;;
  if stat_ok sb then
    log LOGI "=== Restoring to %s ===" [path] ;;
    result <- (if is_image then restore_image archive path image_size exclusions
               else restore_directory archive path exclusions) ;;
    ret (if result then SUCCEEDED else FAILED)
  else
    log LOGW "=== %s does not exist ===" [archive] ;;
    ret FILES_MISSING.

(** *** ROM-level backup and restore *)

(** [if (c) { m; }] for a statement that never returns from the function. *)
Definition when (c : bool) (m : M unit) : M unit :=
  if c then m else ret tt.

Definition backup_rom (rom : Rom) (output_dir : string) (targets : Z) : M bool :=
  if targets =? 0 then
    log LOGE "No backup targets specified" [] ;;
    ret false
  else
    let system_path := full_system_path rom in
    let cache_path := full_cache_path rom in
    let data_path := full_data_path rom in
    let boot_image_path := boot_image_path rom in
    let config_path := config_path rom in
    let thumbnail_path := thumbnail_path rom in
    log LOGI "Backing up:" [] ;;
    log LOGI "- ROM ID: %s" [id rom] ;;
    log LOGI "- Targets:" [] ;;
    when (has_target targets BACKUP_TARGET_SYSTEM)
      (log LOGI "  - System: %s" [system_path]) ;;
    when (has_target targets BACKUP_TARGET_CACHE)
      (log LOGI "  - Cache: %s" [cache_path]) ;;
    when (has_target targets BACKUP_TARGET_DATA)
      (log LOGI "  - Data: %s" [data_path]) ;;
    when (has_target targets BACKUP_TARGET_BOOT)
      (log LOGI "  - Boot image: %s" [boot_image_path]) ;;
    when (has_target targets BACKUP_TARGET_CONFIG)
      (log LOGI "  - Configs: %s" [config_path] ;;
       log LOGI "             %s" [thumbnail_path]) ;;
    log LOGI "- Backup directory: %s" [output_dir] ;;
    (* Backup boot image *)
    failed <- (if has_target targets BACKUP_TARGET_BOOT then
                 r <- backup_boot_image rom output_dir ;;
                 ret (Result_eqb r FAILED)
               else ret false) ;;
    if failed then ret false else
    (* Backup configs *)
    failed <- (if has_target targets BACKUP_TARGET_CONFIG then
                 r <- backup_configs rom output_dir ;;
                 ret (Result_eqb r FAILED)
               else ret false) ;;
    if failed then ret false else
    (* Backup system *)
    failed <- (if has_target targets BACKUP_TARGET_SYSTEM then
                 r <- backup_partition system_path output_dir BACKUP_NAME_SYSTEM
                        (system_is_image rom) ["multiboot"] ;;
                 ret (Result_eqb r FAILED)
               else ret false) ;;
    if failed then ret false else
    (* Backup cache *)
    failed <- (if has_target targets BACKUP_TARGET_CACHE then
                 r <- backup_partition cache_path output_dir BACKUP_NAME_CACHE
                        (cache_is_image rom) ["multiboot"] ;;
                 ret (Result_eqb r FAILED)
               else ret false) ;;
    if failed then ret false else
    (* Backup data *)
    failed <- (if has_target targets BACKUP_TARGET_DATA then
                 r <- backup_partition data_path output_dir BACKUP_NAME_DATA
                        (data_is_image rom) ["media"; "multiboot"] ;;
                 ret (Result_eqb r FAILED)
               else ret false) ;;
    if failed then ret false else
    ret true.

Definition restore_rom (rom : Rom) (input_dir : string) (targets : Z) : M bool :=
  if targets =? 0 then
    log LOGE "No restore targets specified" [] ;;
    ret false
  else
    let system_path := full_system_path rom in
    let cache_path := full_cache_path rom in
    let data_path := full_data_path rom in
    let boot_image_path := boot_image_path rom in
    let config_path := config_path rom in
    let thumbnail_path := thumbnail_path rom in
    log LOGI "Restoring:" [] ;;
    log LOGI "- ROM ID: %s" [id rom] ;;
    log LOGI "- Targets:" [] ;;
    when (has_target targets BACKUP_TARGET_SYSTEM)
      (log LOGI "  - System: %s" [system_path]) ;;
    when (has_target targets BACKUP_TARGET_CACHE)
      (log LOGI "  - Cache: %s" [cache_path]) ;;
    when (has_target targets BACKUP_TARGET_DATA)
      (log LOGI "  - Data: %s" [data_path]) ;;
    when (has_target targets BACKUP_TARGET_BOOT)
      (log LOGI "  - Boot image: %s" [boot_image_path]) ;;
    when (has_target targets BACKUP_TARGET_CONFIG)
      (log LOGI "  - Configs: %s" [config_path] ;;
       log LOGI "             %s" [thumbnail_path]) ;;
    log LOGI "- Backup directory: %s" [input_dir] ;;
    let multiboot_dir := MULTIBOOT_DIR K ++ "/" ++ id rom in
    made <- mkdir_recursive multiboot_dir mode_0775 ;;
    if negb (mkdir_ok made) then
      log LOGE "%s: Failed to create directory: %s" [multiboot_dir] ;;
      ret false
    else
    (* Restore boot image *)
    failed <- (if has_target targets BACKUP_TARGET_BOOT then
                 r <- restore_boot_image rom input_dir ;;
                 ret (Result_eqb r FAILED)
               else ret false) ;;
    if failed then ret false else
    (* Restore configs *)
    failed <- (if has_target targets BACKUP_TARGET_CONFIG then
                 r <- restore_configs rom input_dir ;;
                 ret (Result_eqb r FAILED)
               else ret false) ;;
    if failed then ret false else
    fix_multiboot_permissions ;;
    (* Restore system *)
    failed <- (if has_target targets BACKUP_TARGET_SYSTEM then
                 system_partition <- get_system_partition ;;
                 image_size <- mount_get_total_size system_partition ;;
                 if image_size =? 0 then
                   log LOGE "Failed to get the size of the system partition" [] ;;
                   ret true
                 else
                   r <- restore_partition system_path input_dir BACKUP_NAME_SYSTEM
                          (system_is_image rom) image_size [] ;;
                   ret (Result_eqb r FAILED)
               else ret false) ;;
    if failed then ret false else
    (* Restore cache *)
    failed <- (if has_target targets BACKUP_TARGET_CACHE then
                 r <- restore_partition cache_path input_dir BACKUP_NAME_CACHE
                        (cache_is_image rom) (DEFAULT_IMAGE_SIZE K) [] ;;
                 ret (Result_eqb r FAILED)
               else ret false) ;;
    if failed then ret false else
    (* Restore data *)
    failed <- (if has_target targets BACKUP_TARGET_DATA then
                 r <- restore_partition data_path input_dir BACKUP_NAME_DATA
                        (data_is_image rom) (DEFAULT_IMAGE_SIZE K) ["media"] ;;
                 ret (Result_eqb r FAILED)
               else ret false) ;;
    if failed then ret false else
    ret true.

End Engine.

(** ** Reading traces *)

(** The bit [i] of the bits of a token (no bit for an unknown token). *)
Definition token_testbit (i : Z) (target : string) : bool :=
  match target_bits target with
  | Some bits => Z.testbit bits i
  | None => false
  end.

Definition known_target (target : string) : bool :=
  match target_bits target with Some _ => true | None => false end.

(** Events that only observe or report: [stat] and the logger. *)
Definition read_only_event (e : Event) : bool :=
  match e with
  | EvLog _ _ _ | EvStat _ _ => true
  | _ => false
  end.

Definition copy_failed (e : Event) : bool :=
  match e with
  | EvCopyFile _ _ _ false => true
  | _ => false
  end.

Definition source_missing (e : Event) : bool :=
  match e with
  | EvStat _ r => negb (stat_ok r)
  | _ => false
  end.

(** The paths [stat] was called on, and the copies made, in order. *)
Fixpoint stat_paths (evs : list Event) : list string :=
  match evs with
  | [] => []
  | EvStat path _ :: rest => path :: stat_paths rest
  | _ :: rest => stat_paths rest
  end.

Fixpoint copies (evs : list Event) : list (string * string) :=
  match evs with
  | [] => []
  | EvCopyFile source target _ _ :: rest => (source, target) :: copies rest
  | _ :: rest => copies rest
  end.

(** The sources that [stat] found, in order. *)
Fixpoint found_paths (evs : list Event) : list string :=
  match evs with
  | [] => []
  | EvStat path StatOk :: rest => path :: found_paths rest
  | _ :: rest => found_paths rest
  end.

Definition archive_pass_succeeded (e : Event) : bool :=
  match e with
  | EvTarCreate _ _ _ true | EvTarExtract _ _ _ true => true
  | _ => false
  end.

Definition mount_succeeded (e : Event) : bool :=
  match e with
  | EvMount _ _ _ _ _ true => true
  | _ => false
  end.

Definition unmount_attempt (e : Event) : bool :=
  match e with
  | EvUmount _ _ => true
  | _ => false
  end.

Definition unmount_succeeded (e : Event) : bool :=
  match e with
  | EvUmount _ true => true
  | _ => false
  end.

Definition unmount_failed (e : Event) : bool :=
  match e with
  | EvUmount _ false => true
  | _ => false
  end.

Definition unmount_error_logged (e : Event) : bool :=
  match e with
  | EvLog LOGE fmt args =>
      (fmt =? "Failed to unmount %s: %s")%string
      && match args with
         | [dir] => (dir =? BACKUP_MNT_DIR)%string
         | _ => false
         end
  | _ => false
  end.

Definition mount_point_removal (e : Event) : bool :=
  match e with
  | EvRmdir _ => true
  | _ => false
  end.

(** The events that change the mount table or remove the mount point. *)
Definition mount_table_event (e : Event) : bool :=
  match e with
  | EvMount _ _ _ _ _ _ | EvUmount _ _ | EvRmdir _ => true
  | _ => false
  end.

(** The last [n] elements of a list. *)
Definition lastn {A : Type} (n : nat) (l : list A) : list A :=
  rev (firstn n (rev l)).

(** The mount scope of an image-mode pass, as the code keeps it: nothing is
    unmounted or removed unless the mount succeeded; after a successful
    mount there is one unmount attempt, after the body, and the removal of
    the mount point follows it exactly when the unmount succeeded; a failed
    unmount is logged and fails the pass. *)
Definition mount_scope_kept (image : string) (flags : Z)
    (run : bool * list Event) : Prop :=
  let evs := snd run in
  let mounted := EvMount image BACKUP_MNT_DIR "ext4" flags "" true in
  if existsb mount_succeeded evs then
    (filter mount_table_event evs =
       [mounted; EvUmount BACKUP_MNT_DIR true; EvRmdir BACKUP_MNT_DIR]
     /\ lastn 2 evs = [EvUmount BACKUP_MNT_DIR true; EvRmdir BACKUP_MNT_DIR])
    \/
    (filter mount_table_event evs = [mounted; EvUmount BACKUP_MNT_DIR false]
     /\ lastn 2 evs =
          [EvUmount BACKUP_MNT_DIR false;
           EvLog LOGE "Failed to unmount %s: %s" [BACKUP_MNT_DIR]]
     /\ fst run = false)
  else
    existsb unmount_attempt evs = false
    /\ existsb mount_point_removal evs = false
    /\ fst run = false.

(** ** A sample world

    Paths in [missing] do not exist; the operations named in [failing] fail;
    everything else succeeds.  Directories list the same five names. *)
Definition mem (x : string) (l : list string) : bool :=
  existsb (String.eqb x) l.

Definition sample_cpio : CpioFile :=
  [mkCpioEntry "init" mode_0755 (list_byte_of_string "#!");
   mkCpioEntry "romid" mode_0664 (list_byte_of_string "primary");
   mkCpioEntry "default.prop" mode_0664 (list_byte_of_string "ro.x=1")].

Definition sample_boot_image : BootImage :=
  mkBootImage (list_byte_of_string "ramdisk") [] TypeAndroid TypeAndroid
    (list_byte_of_string "kernel").

Definition sample_env (missing failing : list string) (system_size : Z) : Env :=
  mkEnv
    (fun _ path => if mem path missing then StatENOENT else StatOk)
    (fun _ _ _ => if mem "mkdir_recursive" failing then MkdirError else MkdirOk)
    (fun _ _ _ => negb (mem "mkdir_parent" failing))
    (fun _ _ _ _ _ _ => negb (mem "mount" failing))
    (fun _ _ => negb (mem "umount" failing))
    (fun _ _ => negb (mem "opendir" failing))
    (fun _ _ => ([".."; "."; "app"; "media"; "multiboot"], mem "readdir" failing))
    (fun _ _ _ _ => negb (mem "tar_create" failing))
    (fun _ _ _ _ => negb (mem "tar_extract" failing))
    (fun _ _ _ => negb (mem "wipe_directory" failing))
    (fun _ _ _ => if mem "create_ext4_image" failing then CreateImageFAILED
                  else CreateImageSUCCEEDED)
    (fun _ _ _ _ => negb (mem "copy_file" failing))
    (fun _ _ => if mem "loadFile" failing then None else Some sample_boot_image)
    (fun _ _ => if mem "file_read_all" failing then None
                else Some (list_byte_of_string "aboot"))
    (fun _ _ _ => negb (mem "createFile" failing))
    (fun _ => "/raw/system")
    (fun _ _ => system_size)
    (fun _ => if mem "cpio_load" failing then None else Some sample_cpio)
    (fun cpio => if mem "createData" failing then None
                 else Some (List.concat (map entry_data cpio))).

Definition sample_constants : Constants :=
  mkConstants "/data/media/0/MultiBoot" (4 * 1024 * 1024 * 1024)
    "/dev/block/platform/msm_sdcc.1/by-name/aboot".

Definition sample_rom : Rom :=
  mkRom "dual"
    "/raw/system/multiboot/dual/system"
    "/raw/cache/multiboot/dual/cache"
    "/raw/data/multiboot/dual/data"
    "/data/media/0/MultiBoot/dual/boot.img"
    "/data/media/0/MultiBoot/dual/config.json"
    "/data/media/0/MultiBoot/dual/thumbnail.webp"
    false false false.

(** ** The ROM id in the ramdisk *)

(** The two archive operations of [restore_boot_image] that set the ROM id. *)
Definition set_romid (rom_id : string) (cpio : CpioFile) : CpioFile :=
  cpio_addFile (cpio_remove cpio "romid") (list_byte_of_string rom_id)
    "romid" mode_0664.


(** A procedure run [n] times in a row. *)
Fixpoint repeatedly {A : Type} (n : nat) (m : M A) : M (list A) :=
  match n with
  | O => ret []
  | S k =>
      a <- m ;;
      rest <- repeatedly k m ;;
      ret (a :: rest)
  end.

Definition boot_image_written (e : Event) : bool :=
  match e with
  | EvBootImageCreateFile _ _ true => true
  | _ => false
  end.



(** ** What procedures emit *)

(** Every event a procedure emits, whatever the history, satisfies [P]. *)
Definition emits {A : Type} (P : Event -> Prop) (m : M A) : Prop :=
  forall h, Forall P (snd (m h)).



Definition archive_omits (name : string) (e : Event) : Prop :=
  match e with
  | EvTarCreate _ _ contents _ => ~ In name contents
  | _ => True
  end.



(** ** The coordinator, as the design describes it

    The steps in their fixed order, the steps a target set selects, and the
    fold that runs them and stops at the first that fails. *)
Inductive Step : Type := StepBoot | StepConfig | StepSystem | StepCache | StepData.

Definition step_order : list Step :=
  [StepBoot; StepConfig; StepSystem; StepCache; StepData].

Definition step_target (s : Step) : Z :=
  match s with
  | StepBoot => BACKUP_TARGET_BOOT
  | StepConfig => BACKUP_TARGET_CONFIG
  | StepSystem => BACKUP_TARGET_SYSTEM
  | StepCache => BACKUP_TARGET_CACHE
  | StepData => BACKUP_TARGET_DATA
  end.

Definition selected (targets : Z) (steps : list Step) : list Step :=
  filter (fun s => has_target targets (step_target s)) steps.

(** What became of a step: it ran and returned a result, or it was refused
    because what it needs could not be obtained (it did not run). *)
Inductive StepOutcome : Type :=
| Ran (r : Result)
| Refused.

Definition aborting (o : StepOutcome) : bool :=
  match o with
  | Ran FAILED | Refused => true
  | Ran _ => false
  end.

(** Runs the steps in order; the first aborting outcome ends the run with
    overall failure.  Returns the overall result and the log of the steps
    gone through, each with its outcome. *)
Fixpoint run_steps (run : Step -> M StepOutcome) (steps : list Step)
    : M (bool * list (Step * StepOutcome)) :=
  match steps with
  | [] => ret (true, [])
  | s :: rest =>
      o <- run s ;;
      if aborting o then ret (false, [(s, o)])
      else
        p <- run_steps run rest ;;
        ret (fst p, (s, o) :: snd p)
  end.

(** The lines that announce the selected targets. *)
Definition selection_log (title : string) (rom : Rom) (dir : string)
    (targets : Z) : list Event :=
  ([EvLog LOGI title [];
    EvLog LOGI "- ROM ID: %s" [id rom];
    EvLog LOGI "- Targets:" []]
   ++ (if has_target targets BACKUP_TARGET_SYSTEM
       then [EvLog LOGI "  - System: %s" [full_system_path rom]] else [])
   ++ (if has_target targets BACKUP_TARGET_CACHE
       then [EvLog LOGI "  - Cache: %s" [full_cache_path rom]] else [])
   ++ (if has_target targets BACKUP_TARGET_DATA
       then [EvLog LOGI "  - Data: %s" [full_data_path rom]] else [])
   ++ (if has_target targets BACKUP_TARGET_BOOT
       then [EvLog LOGI "  - Boot image: %s" [boot_image_path rom]] else [])
   ++ (if has_target targets BACKUP_TARGET_CONFIG
       then [EvLog LOGI "  - Configs: %s" [config_path rom];
             EvLog LOGI "             %s" [thumbnail_path rom]] else [])
   ++ [EvLog LOGI "- Backup directory: %s" [dir]])%list.

Section Coordinator.

Variable K : Constants.
Variable env : Env.
Variable rom : Rom.
Variable dir : string.

(** The backup steps; none has a precondition. *)
Definition backup_step (s : Step) : M StepOutcome :=
  r <- match s with
       | StepBoot => backup_boot_image env rom dir
       | StepConfig => backup_configs env rom dir
       | StepSystem =>
           backup_partition env (full_system_path rom) dir BACKUP_NAME_SYSTEM
             (system_is_image rom) ["multiboot"]
       | StepCache =>
           backup_partition env (full_cache_path rom) dir BACKUP_NAME_CACHE
             (cache_is_image rom) ["multiboot"]
       | StepData =>
           backup_partition env (full_data_path rom) dir BACKUP_NAME_DATA
             (data_is_image rom) ["media"; "multiboot"]
       end ;;
  ret (Ran r).

Definition backup_coordinator (targets : Z)
    : M (bool * list (Step * StepOutcome)) :=
  run_steps backup_step (selected targets step_order).

(** The restore steps.  The system step needs the size of the live system
    partition and is refused when the size cannot be obtained. *)
Definition restore_step (s : Step) : M StepOutcome :=
  match s with
  | StepBoot => r <- restore_boot_image K env rom dir ;; ret (Ran r)
  | StepConfig => r <- restore_configs env rom dir ;; ret (Ran r)
  | StepSystem =>
      system_partition <- get_system_partition env ;;
      image_size <- mount_get_total_size env system_partition ;;
      if image_size =? 0 then
        log LOGE "Failed to get the size of the system partition" [] ;;
        ret Refused
      else
        r <- restore_partition env (full_system_path rom) dir BACKUP_NAME_SYSTEM
               (system_is_image rom) image_size [] ;;
        ret (Ran r)
  | StepCache =>
      r <- restore_partition env (full_cache_path rom) dir BACKUP_NAME_CACHE
             (cache_is_image rom) (DEFAULT_IMAGE_SIZE K) [] ;;
      ret (Ran r)
  | StepData =>
      r <- restore_partition env (full_data_path rom) dir BACKUP_NAME_DATA
             (data_is_image rom) (DEFAULT_IMAGE_SIZE K) ["media"] ;;
      ret (Ran r)
  end.

(** Restore: the directory of the ROM is created first, and the permissions
    of the multiboot directories are fixed between the configuration step and
    the partition steps. *)
Definition restore_coordinator (targets : Z)
    : M (bool * list (Step * StepOutcome)) :=
  let multiboot_dir := MULTIBOOT_DIR K ++ "/" ++ id rom in
  made <- mkdir_recursive env multiboot_dir mode_0775 ;;
  if negb (mkdir_ok made) then
    log LOGE "%s: Failed to create directory: %s" [multiboot_dir] ;;
    ret (false, [])
  else
    p1 <- run_steps restore_step (selected targets [StepBoot; StepConfig]) ;;
    if negb (fst p1) then ret p1
    else
      fix_multiboot_permissions ;;
      p2 <- run_steps restore_step
              (selected targets [StepSystem; StepCache; StepData]) ;;
      ret (fst p2, (snd p1 ++ snd p2)%list).

(** The restore as the design's state machine states it: the selected steps,
    in order, and nothing else that could fail. *)
Definition restore_as_stated (targets : Z)
    : M (bool * list (Step * StepOutcome)) :=
  run_steps restore_step (selected targets step_order).

End Coordinator.

(** ** Early exit

    [backup_rom] and [restore_rom] are written as a sequence of blocks, each
    of which may leave the function with [false]. *)

(** Two procedures that make the same run from every history. *)
Definition same_runs {A : Type} (m1 m2 : M A) : Prop :=
  forall h, m1 h = m2 h.

(** A block for one step: when the target is selected the step is run, and
    the block reports whether the function has to return [false]. *)
Definition step_block (run : Step -> M StepOutcome) (targets : Z) (s : Step)
    : M bool :=
  if has_target targets (step_target s) then
    o <- run s ;;
    ret (aborting o)
  else ret false.

(** The blocks of [steps] one after the other, then [k]. *)
Fixpoint blocks (run : Step -> M StepOutcome) (targets : Z)
    (steps : list Step) (k : M bool) : M bool :=
  match steps with
  | [] => k
  | s :: rest =>
      failed <- step_block run targets s ;;
      if failed then ret false else blocks run targets rest k
  end.



Definition is_log (e : Event) : Prop :=
  match e with
  | EvLog _ _ _ => True
  | _ => False
  end.



(** ** More ways to read traces *)

(** Each event with the event that follows it. *)
Fixpoint consecutive (evs : list Event) : list (Event * Event) :=
  match evs with
  | a :: (b :: _) as rest => (a, b) :: consecutive rest
  | _ => []
  end.

Definition first_event (evs : list Event) : option Event :=
  match evs with
  | [] => None
  | e :: _ => Some e
  end.

Definition is_extract (e : Event) : bool :=
  match e with
  | EvTarExtract _ _ _ _ => true
  | _ => false
  end.

Definition is_mount (e : Event) : bool :=
  match e with
  | EvMount _ _ _ _ _ _ => true
  | _ => false
  end.

Definition is_fsck (e : Event) : bool :=
  match e with
  | EvFsckExt4Image _ => true
  | _ => false
  end.

Definition is_create_image (e : Event) : bool :=
  match e with
  | EvCreateExt4Image _ _ _ => true
  | _ => false
  end.

Definition is_archive (e : Event) : bool :=
  match e with
  | EvTarCreate _ _ _ _ => true
  | _ => false
  end.

Definition is_error_log (e : Event) : bool :=
  match e with
  | EvLog LOGE _ _ => true
  | _ => false
  end.

Definition is_boot_image_write (e : Event) : bool :=
  match e with
  | EvBootImageCreateFile _ _ _ => true
  | _ => false
  end.

Definition is_aboot_read (e : Event) : bool :=
  match e with
  | EvFileReadAll _ _ => true
  | _ => false
  end.

(** The directory an event reads, archives, wipes or extracts into. *)
Definition directory_touched (e : Event) : option string :=
  match e with
  | EvOpendir d _ | EvReaddir d _ _ | EvTarCreate _ d _ _
  | EvTarExtract _ d _ _ | EvWipeDirectory d _ _ => Some d
  | _ => None
  end.

(** [e] touches no directory but [d]. *)
Definition touches_only (d : string) (e : Event) : Prop :=
  match directory_touched e with
  | Some d' => d' = d
  | None => True
  end.

(** An extraction comes right after the successful wipe, with the given
    exclusions, of the directory it extracts into, and it extracts the whole
    of the given archive. *)
Definition extract_after_wipe (archive : string) (exclusions : list string)
    (ab : Event * Event) : Prop :=
  match snd ab with
  | EvTarExtract input d patterns _ =>
      fst ab = EvWipeDirectory d exclusions true
      /\ input = archive /\ patterns = []
  | _ => True
  end.

(** A mount comes right after the file system check of the image it
    mounts, at the shared mount point, as ext4 with the given flags. *)
Definition mount_after_fsck (image : string) (flags : Z)
    (ab : Event * Event) : Prop :=
  match snd ab with
  | EvMount source target fstype fl data _ =>
      fst ab = EvFsckExt4Image image
      /\ source = image /\ target = BACKUP_MNT_DIR /\ fstype = "ext4"
      /\ fl = flags /\ data = ""
  | _ => True
  end.

(** Reading a directory failed: it could not be opened, or an error came up
    while its entries were read. *)
Definition read_failed (e : Event) : bool :=
  match e with
  | EvOpendir _ false | EvReaddir _ _ true => true
  | _ => false
  end.

(** What [backup_directory] hands to the archiver: the archive and the
    directory it was given, and of the names read from the directory those
    that are neither [.] nor [..] nor excluded. *)
Definition archives_what_was_read (output_file directory : string)
    (exclusions : list string) (evs : list Event) (e : Event) : Prop :=
  match e with
  | EvTarCreate o d contents _ =>
      o = output_file /\ d = directory
      /\ exists names,
           In (EvOpendir directory true) evs
           /\ In (EvReaddir directory names false) evs
           /\ forall n, In n contents <->
                        In n names /\ n <> "." /\ n <> ".."
                        /\ ~ In n exclusions
  | _ => True
  end.

(** What an image pass does to image files: it checks and mounts the image
    it was given, and creates no image but that one, with the given size. *)
Definition image_calls_on (image : string) (size : Z) (e : Event) : Prop :=
  match e with
  | EvMount source _ _ _ _ _ => source = image
  | EvFsckExt4Image i => i = image
  | EvCreateExt4Image i s _ => i = image /\ s = size
  | EvMkdirParent p _ _ => p = image
  | _ => True
  end.

(** Events of the image machinery: none of them occurs in directory mode. *)
Definition image_machinery (e : Event) : bool :=
  match e with
  | EvMount _ _ _ _ _ _ | EvUmount _ _ | EvRmdir _ | EvFsckExt4Image _
  | EvCreateExt4Image _ _ _ | EvMkdirParent _ _ _ | EvMkdirRecursive _ _ _ => true
  | _ => false
  end.

Definition create_failed (e : Event) : bool :=
  match e with
  | EvCreateExt4Image _ _ r => negb (create_image_succeeded r)
  | _ => false
  end.

Definition stat_not_found (e : Event) : bool :=
  match e with
  | EvStat _ StatENOENT => true
  | _ => false
  end.

Definition stat_error (e : Event) : bool :=
  match e with
  | EvStat _ StatError => true
  | _ => false
  end.

Definition parent_failed (e : Event) : bool :=
  match e with
  | EvMkdirParent _ _ false => true
  | _ => false
  end.

Definition mount_point_error (e : Event) : bool :=
  match e with
  | EvMkdirRecursive _ _ MkdirError => true
  | _ => false
  end.

Definition mount_point_exists (e : Event) : bool :=
  match e with
  | EvMkdirRecursive _ _ MkdirEEXIST => true
  | _ => false
  end.

(** Events that change the contents of a mounted image or directory. *)
Definition is_wipe_or_extract (e : Event) : bool :=
  match e with
  | EvWipeDirectory _ _ _ | EvTarExtract _ _ _ _ => true
  | _ => false
  end.

(** An environment that differs in the answer of [util::mkdir_recursive]. *)
Definition with_mkdir_recursive (r : MkdirResult) (env : Env) : Env :=
  mkEnv (env_stat env) (fun _ _ _ => r) (env_mkdir_parent env) (env_mount env)
    (env_umount env) (env_opendir env) (env_readdir env) (env_tar_create env)
    (env_tar_extract env) (env_wipe_directory env) (env_create_ext4_image env)
    (env_copy_file env) (env_bootimage_loadFile env) (env_file_read_all env)
    (env_bootimage_createFile env) (env_get_system_partition env)
    (env_mount_get_total_size env) (env_cpio_load env) (env_cpio_createData env).

(** An environment that differs in the boot image it loads. *)
Definition with_boot_image (bi : BootImage) (env : Env) : Env :=
  mkEnv (env_stat env) (env_mkdir_recursive env) (env_mkdir_parent env)
    (env_mount env) (env_umount env) (env_opendir env) (env_readdir env)
    (env_tar_create env) (env_tar_extract env) (env_wipe_directory env)
    (env_create_ext4_image env) (env_copy_file env) (fun _ _ => Some bi)
    (env_file_read_all env) (env_bootimage_createFile env)
    (env_get_system_partition env) (env_mount_get_total_size env)
    (env_cpio_load env) (env_cpio_createData env).

(** Events of the boot-image backup: it looks at the live boot image, logs,
    and copies the live boot image into the bundle. *)
Definition boot_backup_event (rom : Rom) (backup_dir : string) (e : Event)
    : Prop :=
  match e with
  | EvLog _ _ _ => True
  | EvStat path _ => path = boot_image_path rom
  | EvCopyFile source target flags _ =>
      source = boot_image_path rom
      /\ target = backup_dir ++ "/" ++ BACKUP_NAME_BOOT_IMAGE
      /\ flags = 0
  | _ => False
  end.

(** The boot image a restore writes, against the one it loaded from the
    bundle: the ramdisk is the loaded ramdisk archive with the ROM id set,
    serialised again; the type it was loaded as and the other parts are kept;
    for an image loaded as Loki the aboot image is what was read from the
    aboot partition and the target type is Loki, for any other image both
    are kept and the aboot partition is not read. *)
Definition written_from_bundle (K : Constants) (env : Env) (rom : Rom)
    (backup_dir : string) (evs : list Event) (e : Event) : Prop :=
  match e with
  | EvBootImageCreateFile path bi _ =>
      path = boot_image_path rom
      /\ exists loaded cpio,
           In (EvBootImageLoadFile
                 (backup_dir ++ "/" ++ BACKUP_NAME_BOOT_IMAGE) (Some loaded)) evs
           /\ env_cpio_load env (ramdiskImage loaded) = Some cpio
           /\ env_cpio_createData env (set_romid (id rom) cpio)
              = Some (ramdiskImage bi)
           /\ wasType bi = wasType loaded
           /\ otherImages bi = otherImages loaded
           /\ if is_Loki (wasType loaded) then
                targetType bi = TypeLoki
                /\ In (EvFileReadAll (ABOOT_PARTITION K) (Some (abootImage bi))) evs
              else
                targetType bi = targetType loaded
                /\ abootImage bi = abootImage loaded
                /\ existsb is_aboot_read evs = false
  | EvFileReadAll path _ =>
      path = ABOOT_PARTITION K
      /\ exists loaded,
           In (EvBootImageLoadFile
                 (backup_dir ++ "/" ++ BACKUP_NAME_BOOT_IMAGE) (Some loaded)) evs
           /\ wasType loaded = TypeLoki
  | _ => True
  end.

(** A boot image loaded as Loki. *)
Definition sample_loki_image : BootImage :=
  mkBootImage (list_byte_of_string "ramdisk") (list_byte_of_string "old aboot")
    TypeLoki TypeAndroid (list_byte_of_string "kernel").

(** ** What a backup and a restore may touch *)

(** The live partitions of a ROM. *)
Definition partition_paths (rom : Rom) : list string :=
  [full_system_path rom; full_cache_path rom; full_data_path rom].

(** Everything a ROM backup does: it looks at files and directories, logs,
    copies the boot image, the configuration file and the thumbnail into the
    bundle, writes the three archives into the bundle, and for an image
    makes the mount point, checks the image and mounts it read-only.  It
    does nothing else: it never wipes, extracts, creates an image, or loads
    or writes a boot image. *)
Definition backup_rom_event (rom : Rom) (output_dir : string) (e : Event)
    : Prop :=
  match e with
  | EvLog _ _ _ | EvStat _ _ | EvOpendir _ _ | EvReaddir _ _ _ => True
  | EvCopyFile source target _ _ =>
      In (source, target)
        [(boot_image_path rom, output_dir ++ "/" ++ BACKUP_NAME_BOOT_IMAGE);
         (config_path rom, output_dir ++ "/" ++ BACKUP_NAME_CONFIG);
         (thumbnail_path rom, output_dir ++ "/" ++ BACKUP_NAME_THUMBNAIL)]
  | EvTarCreate output_file directory _ _ =>
      In (output_file, directory)
        [(output_dir ++ "/" ++ BACKUP_NAME_SYSTEM, full_system_path rom);
         (output_dir ++ "/" ++ BACKUP_NAME_SYSTEM, BACKUP_MNT_DIR);
         (output_dir ++ "/" ++ BACKUP_NAME_CACHE, full_cache_path rom);
         (output_dir ++ "/" ++ BACKUP_NAME_CACHE, BACKUP_MNT_DIR);
         (output_dir ++ "/" ++ BACKUP_NAME_DATA, full_data_path rom);
         (output_dir ++ "/" ++ BACKUP_NAME_DATA, BACKUP_MNT_DIR)]
  | EvMount source target _ flags _ _ =>
      In source (partition_paths rom) /\ target = BACKUP_MNT_DIR
      /\ flags = MS_RDONLY
  | EvFsckExt4Image image => In image (partition_paths rom)
  | EvUmount path _ | EvRmdir path | EvMkdirRecursive path _ _ =>
      path = BACKUP_MNT_DIR
  | _ => False
  end.

(** Everything a ROM restore does.  From the bundle it only reads: the
    configuration file and the thumbnail are copied out of it, the three
    archives are extracted whole, the boot image is loaded.  It never writes
    an archive and never lists a directory. *)
Definition restore_rom_event (K : Constants) (rom : Rom) (input_dir : string)
    (e : Event) : Prop :=
  match e with
  | EvLog _ _ _ | EvStat _ _ | EvGetSystemPartition _
  | EvMountGetTotalSize _ _ | EvFixMultibootPermissions => True
  | EvCopyFile source target _ _ =>
      In (source, target)
        [(input_dir ++ "/" ++ BACKUP_NAME_CONFIG, config_path rom);
         (input_dir ++ "/" ++ BACKUP_NAME_THUMBNAIL, thumbnail_path rom)]
  | EvTarExtract input_file directory patterns _ =>
      In (input_file, directory)
        [(input_dir ++ "/" ++ BACKUP_NAME_SYSTEM, full_system_path rom);
         (input_dir ++ "/" ++ BACKUP_NAME_SYSTEM, BACKUP_MNT_DIR);
         (input_dir ++ "/" ++ BACKUP_NAME_CACHE, full_cache_path rom);
         (input_dir ++ "/" ++ BACKUP_NAME_CACHE, BACKUP_MNT_DIR);
         (input_dir ++ "/" ++ BACKUP_NAME_DATA, full_data_path rom);
         (input_dir ++ "/" ++ BACKUP_NAME_DATA, BACKUP_MNT_DIR)]
      /\ patterns = []
  | EvBootImageLoadFile path _ =>
      path = input_dir ++ "/" ++ BACKUP_NAME_BOOT_IMAGE
  | EvBootImageCreateFile path _ _ => path = boot_image_path rom
  | EvFileReadAll path _ => path = ABOOT_PARTITION K
  | EvWipeDirectory directory _ _ =>
      In directory (BACKUP_MNT_DIR :: partition_paths rom)
  | EvCreateExt4Image image _ _ | EvFsckExt4Image image
  | EvMkdirParent image _ _ => In image (partition_paths rom)
  | EvMount source target _ flags _ _ =>
      In source (partition_paths rom) /\ target = BACKUP_MNT_DIR /\ flags = 0
  | EvUmount path _ | EvRmdir path => path = BACKUP_MNT_DIR
  | EvMkdirRecursive path _ _ =>
      path = BACKUP_MNT_DIR \/ path = MULTIBOOT_DIR K ++ "/" ++ id rom
  | EvTarCreate _ _ _ _ | EvOpendir _ _ | EvReaddir _ _ _ => False
  end.

(** No step of the coordinator is selected. *)
Definition selects_no_step (targets : Z) : Prop :=
  forall s, has_target targets (step_target s) = false.

(** The files of the bundle that belong to a step. *)
Definition step_artifacts (s : Step) : list string :=
  match s with
  | StepBoot => [BACKUP_NAME_BOOT_IMAGE]
  | StepConfig => [BACKUP_NAME_CONFIG; BACKUP_NAME_THUMBNAIL]
  | StepSystem => [BACKUP_NAME_SYSTEM]
  | StepCache => [BACKUP_NAME_CACHE]
  | StepData => [BACKUP_NAME_DATA]
  end.

Definition artifact_paths (dir : string) (s : Step) : list string :=
  map (fun name => dir ++ "/" ++ name) (step_artifacts s).

(** The event writes a file of the bundle that belongs to the step. *)
Definition writes_artifact (dir : string) (s : Step) (e : Event) : Prop :=
  match e with
  | EvCopyFile _ target _ _ => In target (artifact_paths dir s)
  | EvTarCreate output_file _ _ _ => In output_file (artifact_paths dir s)
  | _ => False
  end.

(** The event reads a file of the bundle that belongs to the step. *)
Definition reads_artifact (dir : string) (s : Step) (e : Event) : Prop :=
  match e with
  | EvCopyFile source _ _ _ => In source (artifact_paths dir s)
  | EvTarExtract input_file _ _ _ => In input_file (artifact_paths dir s)
  | EvBootImageLoadFile path _ => In path (artifact_paths dir s)
  | _ => False
  end.

(** ** The command line

    [backup_main] and [restore_main] read their options, check them, look up
    the ROM and hand over to the engine.  What they do besides running the
    engine is recorded in a [CmdEvent]; a call of the engine appears as the
    engine's own events, wrapped in [CmdEngine]. *)

Definition EXIT_SUCCESS : Z := 0.
Definition EXIT_FAILURE : Z := 1.

Inductive Stream : Type := Stdout | Stderr.

Inductive CmdEvent : Type :=
| CmdEngine (e : Event)
| CmdFprintf (stream : Stream) (format : string) (args : list string)
| CmdFormatTime (format : string) (result : option string)
| CmdGetCachePartition (result : string)
| CmdGetDataPartition (result : string)
| CmdIsMounted (partition : string) (result : bool)
| CmdFindInstalled (romid : string) (result : option Rom)
| CmdCreateRom (romid : string) (result : option Rom).

(** The collaborators of the command line: the engine's own, the clock, the
    partition table and the list of ROMs.  [cmd_find_installed] stands for
    [Roms::add_installed] followed by [Roms::find_by_id]. *)
Record CmdEnv : Type := mkCmdEnv {
  cmd_engine : Env;
  cmd_format_time : list CmdEvent -> string -> option string;
  cmd_get_cache_partition : list CmdEvent -> string;
  cmd_get_data_partition : list CmdEvent -> string;
  cmd_is_mounted : list CmdEvent -> string -> bool;
  cmd_find_installed : list CmdEvent -> string -> option Rom;
  cmd_create_rom : list CmdEvent -> string -> option Rom
}.

(** The constants of multiboot.h the command line uses. *)
Record CmdConstants : Type := mkCmdConstants {
  MULTIBOOT_BACKUP_DIR : string
}.

(** One answer of [getopt_long]: the option character and [optarg]. *)
Definition Opt : Type := (ascii * string)%type.

(** The variables the option loop fills in. *)
Record Options : Type := mkOptions {
  romid : string;
  targets_str : string;
  name : string;
  backupdir : string;
  force : bool
}.

(** How the option loop ends: all options read, [-h] met, or an option that
    is none of the expected ones. *)
Inductive Parsed : Type :=
| ParsedOk (o : Options)
| ParsedHelp
| ParsedDefault.

(** The [switch] of [backup_main], for the answers of [getopt_long] in the
    order they come. *)
Fixpoint backup_options (opts : list Opt) (o : Options) : Parsed :=
  match opts with
  | [] => ParsedOk o
  | (opt, optarg) :: rest =>
      if Ascii.eqb opt "r" then
        backup_options rest
          (mkOptions optarg (targets_str o) (name o) (backupdir o) (force o))
      else if Ascii.eqb opt "t" then
        backup_options rest
          (mkOptions (romid o) optarg (name o) (backupdir o) (force o))
      else if Ascii.eqb opt "n" then
        backup_options rest
          (mkOptions (romid o) (targets_str o) optarg (backupdir o) (force o))
      else if Ascii.eqb opt "d" then
        backup_options rest
          (mkOptions (romid o) (targets_str o) (name o) optarg (force o))
      else if Ascii.eqb opt "f" then
        backup_options rest
          (mkOptions (romid o) (targets_str o) (name o) (backupdir o) true)
      else if Ascii.eqb opt "h" then ParsedHelp
      else ParsedDefault
  end.

(** The [switch] of [restore_main]: it has no case for [-f]. *)
Fixpoint restore_options (opts : list Opt) (o : Options) : Parsed :=
  match opts with
  | [] => ParsedOk o
  | (opt, optarg) :: rest =>
      if Ascii.eqb opt "r" then
        restore_options rest
          (mkOptions optarg (targets_str o) (name o) (backupdir o) (force o))
      else if Ascii.eqb opt "t" then
        restore_options rest
          (mkOptions (romid o) optarg (name o) (backupdir o) (force o))
      else if Ascii.eqb opt "n" then
        restore_options rest
          (mkOptions (romid o) (targets_str o) optarg (backupdir o) (force o))
      else if Ascii.eqb opt "d" then
        restore_options rest
          (mkOptions (romid o) (targets_str o) (name o) optarg (force o))
      else if Ascii.eqb opt "h" then ParsedHelp
      else ParsedDefault
  end.

(** A line of text with its line feed. *)
Definition line (s : string) : string := s ++ String "010" "".

Definition lines (l : list string) : string := String.concat "" (map line l).

(** A command maps the history so far to its return value and the events it
    emits (oldest first). *)
Definition C (A : Type) : Type := list CmdEvent -> A * list CmdEvent.

Definition cmd_ret {A : Type} (a : A) : C A := fun _ => (a, []).

Definition cmd_bind {A B : Type} (m : C A) (f : A -> C B) : C B :=
  fun h =>
    let (a, e1) := m h in
    let (b, e2) := f a (h ++ e1)%list in
    (b, (e1 ++ e2)%list).

(** The engine's part of a history. *)
Definition engine_events (h : list CmdEvent) : list Event :=
  flat_map (fun ce => match ce with CmdEngine e => [e] | _ => [] end) h.

(** Running a procedure of the engine from the command line: the engine's
    collaborators see the engine's part of the history. *)
Definition engine {A : Type} (m : M A) : C A :=
  fun h => let (a, evs) := m (engine_events h) in (a, map CmdEngine evs).

Declare Scope cmd_scope.
Delimit Scope cmd_scope with cmd.
Notation "x <- m ;; k" := (cmd_bind m (fun x => k))
  (at level 61, m at next level, right associativity) : cmd_scope.
Notation "m ;; k" := (cmd_bind m (fun _ => k))
  (at level 61, right associativity) : cmd_scope.

Section CommandLine.

Variable K : Constants.
Variable KC : CmdConstants.
Variable cenv : CmdEnv.

Local Open Scope cmd_scope.

(** [fprintf]: the format string and its string arguments (a
    [strerror(errno)] argument is left out, as for the logger). *)
Definition fprintf (stream : Stream) (format : string) (args : list string)
    : C unit :=
  fun _ => (tt, [CmdFprintf stream format args]).

Definition format_time (format : string) : C (option string) :=
  fun h => let r := cmd_format_time cenv h format in
           (r, [CmdFormatTime format r]).

Definition get_cache_partition : C string :=
  fun h => let r := cmd_get_cache_partition cenv h in
           (r, [CmdGetCachePartition r]).

Definition get_data_partition : C string :=
  fun h => let r := cmd_get_data_partition cenv h in
           (r, [CmdGetDataPartition r]).

Definition is_mounted (partition : string) : C bool :=
  fun h => let r := cmd_is_mounted cenv h partition in
           (r, [CmdIsMounted partition r]).

Definition find_installed (romid : string) : C (option Rom) :=
  fun h => let r := cmd_find_installed cenv h romid in
           (r, [CmdFindInstalled romid r]).

Definition create_rom (romid : string) : C (option Rom) :=
  fun h => let r := cmd_create_rom cenv h romid in
           (r, [CmdCreateRom romid r]).

(** [partition.empty() || !util::is_mounted(partition)]: the mount table is
    only asked about a partition that has a name. *)
Definition empty_or_not_mounted (partition : string) : C bool :=
  if empty partition then cmd_ret true
  else
    mounted <- is_mounted partition ;;
    cmd_ret (negb mounted).

Definition ensure_partitions_mounted : C bool :=
  system_partition <- engine (get_system_partition (cmd_engine cenv)) ;;
  cache_partition <- get_cache_partition ;;
  data_partition <- get_data_partition ;;
  bad <- empty_or_not_mounted system_partition ;;
  if bad then
    fprintf Stderr (line "System partition is not mounted") [] ;;
    cmd_ret false
  else
  bad <- empty_or_not_mounted cache_partition ;;
  if bad then
    fprintf Stderr (line "Cache partition is not mounted") [] ;;
    cmd_ret false
  else
  bad <- empty_or_not_mounted data_partition ;;
  if bad then
    fprintf Stderr (line "Data partition is not mounted") [] ;;
    cmd_ret false
  else
  cmd_ret true.

Definition backup_usage_text : string :=
  lines
    ["Usage: backup -r <romid> -t <targets> [-n <name>] [OPTION...]";
     "";
     "Options:";
     "  -r, --romid      ROM ID to backup";
     "  -t, --targets    Comma-separated list of targets to backup";
     "                   (Default: 'all')";
     "  -n, --name       Name of backup";
     "                   (Default: YYYY.MM.DD-HH.MM.SS)";
     "  -d, --backupdir  Directory to store backups";
     "                   (Default: " ++ MULTIBOOT_BACKUP_DIR KC ++ ")";
     "  -f, --force      Allow overwriting old backup with the same name";
     "  -h, --help       Display this help message";
     "";
     "Valid backup targets: 'all' or some combination of the following:";
     "  system,cache,data,boot,config";
     "";
     "NOTE: This tool is still in development and the arguments above";
     "have not yet been finalized."].

Definition backup_usage (stream : Stream) : C unit :=
  fprintf stream backup_usage_text [].

Definition restore_usage_text : string :=
  lines
    ["Usage: restore -r <romid> -t <targets> -n <name> [OPTION...]";
     "";
     "Options:";
     "  -r, --romid      ROM ID to restore to";
     "  -t, --targets    Comma-separated list of targets to restore";
     "                   (Default: 'all')";
     "  -n, --name       Name of backup to restore";
     "  -d, --backupdir  Directory containing backups";
     "                   (Default: " ++ MULTIBOOT_BACKUP_DIR KC ++ ")";
     "  -h, --help       Display this help message";
     "";
     "Valid backup targets: 'all' or some combination of the following:";
     "  system,cache,data,boot,config";
     "";
     "NOTE: This tool is still in development and the arguments above";
     "have not yet been finalized."].

Definition restore_usage (stream : Stream) : C unit :=
  fprintf stream restore_usage_text [].

(** [backup_main]; [opts] are the answers of [getopt_long] up to its [-1],
    [operands] is [argc - optind] after the loop.  When the time cannot be
    formatted the function returns [false], which is 0 as an [int]. *)
Definition backup_main (opts : list Opt) (operands : Z) : C Z :=
  formatted <- format_time "%Y.%m.%d-%H.%M.%S" ;;
  match formatted with
  | None =>
      fprintf Stderr (line "Failed to format current time") [] ;;
      cmd_ret 0
  | Some now =>
  match backup_options opts
          (mkOptions "" "all" now (MULTIBOOT_BACKUP_DIR KC) false) with
  | ParsedHelp => backup_usage Stdout ;; cmd_ret EXIT_SUCCESS
  | ParsedDefault => backup_usage Stderr ;; cmd_ret EXIT_FAILURE
  | ParsedOk o =>
  (* There should be no other arguments *)
  if negb (operands =? 0) then
    backup_usage Stderr ;; cmd_ret EXIT_FAILURE
  else
  if empty (romid o) then
    fprintf Stderr (line "No ROM ID specified") [] ;;
    cmd_ret EXIT_FAILURE
  else
  let targets := parse_targets_string (targets_str o) in
  if targets =? 0 then
    fprintf Stderr (line "Invalid targets: %s") [targets_str o] ;;
    cmd_ret EXIT_FAILURE
  else
  if negb (is_valid_backup_name (name o)) then
    fprintf Stderr (line "Invalid backup name: %s") [name o] ;;
    cmd_ret EXIT_FAILURE
  else
  mounted <- ensure_partitions_mounted ;;
  if negb mounted then cmd_ret EXIT_FAILURE else
  found <- find_installed (romid o) ;;
  match found with
  | None =>
      fprintf Stderr (line "ROM '%s' is not installed") [romid o] ;;
      cmd_ret EXIT_FAILURE
  | Some rom =>
  let output_dir := backupdir o ++ "/" ++ name o in
  present <- (if negb (force o) then
                sb <- engine (stat (cmd_engine cenv) output_dir) ;;
                cmd_ret (stat_ok sb)
              else cmd_ret false) ;;
  if present then
    fprintf Stderr
      (line ("Backup '%s' already exists. Choose another name or "
             ++ "pass -f/--force to use this name anyway."))
      [name o] ;;
    cmd_ret EXIT_FAILURE
  else
  made <- engine (mkdir_recursive (cmd_engine cenv) output_dir mode_0755) ;;
  if negb (mkdir_ok made) then
    fprintf Stderr (line "%s: %s") [output_dir] ;;
    cmd_ret EXIT_FAILURE
  else
  ok <- engine (backup_rom (cmd_engine cenv) rom output_dir targets) ;;
  if ok then
    engine (log LOGI "=== Finished ===" []) ;;
    cmd_ret EXIT_SUCCESS
  else
    engine (log LOGI "=== Failed ===" []) ;;
    cmd_ret EXIT_FAILURE
  end
  end
  end.

(** [restore_main]: no default name, no [-f], the ROM need not be installed
    and the bundle must exist. *)
Definition restore_main (opts : list Opt) (operands : Z) : C Z :=
  match restore_options opts
          (mkOptions "" "all" "" (MULTIBOOT_BACKUP_DIR KC) false) with
  | ParsedHelp => restore_usage Stdout ;; cmd_ret EXIT_SUCCESS
  | ParsedDefault => restore_usage Stderr ;; cmd_ret EXIT_FAILURE
  | ParsedOk o =>
  (* There should be no other arguments *)
  if negb (operands =? 0) then
    restore_usage Stderr ;; cmd_ret EXIT_FAILURE
  else
  if empty (romid o) then
    fprintf Stderr (line "No ROM ID specified") [] ;;
    cmd_ret EXIT_FAILURE
  else
  if empty (name o) then
    fprintf Stderr (line "No backup name specified") [] ;;
    cmd_ret EXIT_FAILURE
  else
  let targets := parse_targets_string (targets_str o) in
  if targets =? 0 then
    fprintf Stderr (line "Invalid targets: %s") [targets_str o] ;;
    cmd_ret EXIT_FAILURE
  else
  if negb (is_valid_backup_name (name o)) then
    fprintf Stderr (line "Invalid backup name: %s") [name o] ;;
    cmd_ret EXIT_FAILURE
  else
  mounted <- ensure_partitions_mounted ;;
  if negb mounted then cmd_ret EXIT_FAILURE else
  created <- create_rom (romid o) ;;
  match created with
  | None =>
      fprintf Stderr (line "Invalid ROM ID: '%s'") [romid o] ;;
      cmd_ret EXIT_FAILURE
  | Some rom =>
  let input_dir := backupdir o ++ "/" ++ name o in
  sb <- engine (stat (cmd_engine cenv) input_dir) ;;
  if negb (stat_ok sb) then
    fprintf Stderr (line "Backup '%s' does not exist") [name o] ;;
    cmd_ret EXIT_FAILURE
  else
  ok <- engine (restore_rom K (cmd_engine cenv) rom input_dir targets) ;;
  if ok then
    engine (log LOGI "=== Finished ===" []) ;;
    cmd_ret EXIT_SUCCESS
  else
    engine (log LOGI "=== Failed ===" []) ;;
    cmd_ret EXIT_FAILURE
  end
  end.

End CommandLine.

(** ** Reading the traces of the command line *)

(** The line that says a partition is not mounted. *)
Definition complaint (which : string) : CmdEvent :=
  CmdFprintf Stderr (line (which ++ " partition is not mounted")) [].

(** How the check of one partition fails: a partition without a name is
    refused without asking the mount table. *)
Definition refusal (partition which : string) : list CmdEvent :=
  ((if empty partition then [] else [CmdIsMounted partition false])
   ++ [complaint which])%list.

(** The event changes something outside the program: it is an engine call
    that is neither a look at a file, nor a question to the partition table,
    nor a log line. *)
Definition changes_something (ce : CmdEvent) : bool :=
  match ce with
  | CmdEngine (EvStat _ _) | CmdEngine (EvLog _ _ _)
  | CmdEngine (EvGetSystemPartition _) => false
  | CmdEngine _ => true
  | _ => false
  end.

(** The variables of [backup_main] before its option loop. *)
Definition backup_defaults (KC : CmdConstants) (now : string) : Options :=
  mkOptions "" "all" now (MULTIBOOT_BACKUP_DIR KC) false.

(** The variables of [restore_main] before its option loop. *)
Definition restore_defaults (KC : CmdConstants) : Options :=
  mkOptions "" "all" "" (MULTIBOOT_BACKUP_DIR KC) false.

(** The last event of a trace. *)
Definition last_event (evs : list CmdEvent) : option CmdEvent :=
  match rev evs with e :: _ => Some e | [] => None end.

(** A world for the command line: the clock answers [clock], the three
    partitions have names and [mounted] says whether they are mounted, the
    ROM [dual] is installed and can be created; [missing] and [failing] are
    those of the engine's world. *)
Definition sample_cmd_env (clock : option string) (mounted : bool)
    (missing failing : list string) : CmdEnv :=
  mkCmdEnv
    (sample_env missing failing 4096)
    (fun _ _ => clock)
    (fun _ => "/raw/cache")
    (fun _ => "/raw/data")
    (fun _ _ => mounted)
    (fun _ romid => if (romid =? "dual")%string then Some sample_rom else None)
    (fun _ romid => if (romid =? "dual")%string then Some sample_rom else None).

Definition sample_cmd_constants : CmdConstants :=
  mkCmdConstants "/data/media/0/MultiBoot/backups".

Definition is_fprintf (ce : CmdEvent) : bool :=
  match ce with CmdFprintf _ _ _ => true | _ => false end.

(** The value the option loop leaves in a variable: the argument of the last
    occurrence of its option, or what the variable held before. *)
Definition last_optarg (opt : ascii) (opts : list Opt) (before : string)
    : string :=
  fold_left (fun value o => if Ascii.eqb (fst o) opt then snd o else value)
    opts before.

(** The option is one of [known]. *)
Definition option_among (known : list ascii) (o : Opt) : bool :=
  existsb (Ascii.eqb (fst o)) known.

(** What the engine may do in a run of [backup_main]: ask for the system
    partition, make the backup directory, and what a ROM backup of the ROM
    that was looked up does with this directory. *)
Definition backup_main_event (romid output_dir : string)
    (evs : list CmdEvent) (ce : CmdEvent) : Prop :=
  match ce with
  | CmdEngine e =>
      (exists partition, e = EvGetSystemPartition partition)
      \/ (exists r, e = EvMkdirRecursive output_dir mode_0755 r)
      \/ (exists rom, In (CmdFindInstalled romid (Some rom)) evs
                      /\ backup_rom_event rom output_dir e)
  | _ => True
  end.

(** What the engine may do in a run of [restore_main]: ask for the system
    partition, and what a ROM restore of the ROM that was created does with
    the backup directory. *)
Definition restore_main_event (K : Constants) (romid input_dir : string)
    (evs : list CmdEvent) (ce : CmdEvent) : Prop :=
  match ce with
  | CmdEngine e =>
      (exists partition, e = EvGetSystemPartition partition)
      \/ (exists rom, In (CmdCreateRom romid (Some rom)) evs
                      /\ restore_rom_event K rom input_dir e)
  | _ => True
  end.

(** The three lines after which [backup_main] returns 0. *)
Definition backup_success_ends (KC : CmdConstants) : list CmdEvent :=
  [CmdFprintf Stderr (line "Failed to format current time") [];
   CmdFprintf Stdout (backup_usage_text KC) [];
   CmdEngine (EvLog LOGI "=== Finished ===" [])].

(** The two lines after which [restore_main] returns 0. *)
Definition restore_success_ends (KC : CmdConstants) : list CmdEvent :=
  [CmdFprintf Stdout (restore_usage_text KC) [];
   CmdEngine (EvLog LOGI "=== Finished ===" [])].

(** The trace ends with one of [ends]. *)
Definition ends_with (ends : list CmdEvent) (evs : list CmdEvent) : Prop :=
  exists e, In e ends /\ last_event evs = Some e.

(** The options [backup_main] stores, and those [restore_main] stores. *)
Definition backup_stored : list ascii := ["r"; "t"; "n"; "d"; "f"]%char.
Definition restore_stored : list ascii := ["r"; "t"; "n"; "d"]%char.

(** The first answer of [getopt_long] that is not one of [stored]. *)
Definition first_other (stored : list ascii) (opts : list Opt) : option Opt :=
  List.find (fun o => negb (option_among stored o)) opts.

(** How an option loop ends on an answer it does not store. *)
Definition stops_on (o : Opt) : Parsed :=
  if Ascii.eqb (fst o) "h" then ParsedHelp else ParsedDefault.

(** The variables after all of [opts] were stored. *)
Definition stored_options (opts : list Opt) (o : Options) : Options :=
  mkOptions (last_optarg "r" opts (romid o))
    (last_optarg "t" opts (targets_str o))
    (last_optarg "n" opts (name o))
    (last_optarg "d" opts (backupdir o))
    (force o || existsb (fun x => Ascii.eqb (fst x) "f") opts).

(** ** Image sizes *)





(** * Properties *)

(** ** Running procedures *)

(** Unfold a procedure down to the calls it makes. *)
Ltac unfold_calls :=
  unfold bind, ret, when, log, stat, mkdir_recursive, mkdir_parent,
    fsck_ext4_image, mount, umount, rmdir, opendir, readdir_all,
    libarchive_tar_create, libarchive_tar_extract, wipe_directory,
    create_ext4_image, copy_file, bootimage_loadFile, file_read_all,
    bootimage_createFile, get_system_partition, mount_get_total_size,
    fix_multiboot_permissions in *.

(** The procedures test the answers of the environment through these. *)
Ltac unfold_tests :=
  unfold negb, andb, orb, stat_ok, mkdir_ok, errno_is_EEXIST,
    create_image_succeeded, is_Loki, Result_eqb in *.

(** Split on the answer that decides the next branch of the run [t], in
    program order. *)
Ltac next_answer t :=
  lazymatch t with
  | (?a, ?b) => first [next_answer a | next_answer b]
  | match ?x with _ => _ end => first [next_answer x | destruct x eqn:?]
  | fst ?y => first [next_answer y | destruct y eqn:?]
  | snd ?y => first [next_answer y | destruct y eqn:?]
  | (?x :: ?l)%list => next_answer l
  | (?l1 ++ ?l2)%list => first [next_answer l1 | next_answer l2]
  | ?f _ => next_answer f
  end.

(** To prove a property of a run, go through the runs the procedure can
    make: [cases_of_run t] abstracts the run [t] in the goal, the caller
    unfolds the procedure and calls [run_proc], and [this_run] puts each
    outcome back in place. *)
Lemma run_cases {A : Type} (P : A -> Prop) (t : A) :
  (forall r, t = r -> P r) -> P t.
Proof. intros H. now apply H. Qed.

Ltac cases_of_run t :=
  pattern t;
  match goal with
  | |- ?P _ => apply (run_cases P t)
  end;
  cbv beta; intro.

Ltac run_step :=
  match goal with
  | |- ?t = _ -> _ => next_answer t
  end.

Ltac run_proc :=
  unfold_calls; cbn; repeat (unfold_tests; run_step; cbn).

Ltac this_run := intros <-; cbn.

(** Split on the answers that a property still depends on. *)
Ltac case_on x :=
  lazymatch x with
  | match ?y with _ => _ end => case_on y
  | fst ?y => case_on y
  | snd ?y => case_on y
  | _ => destruct x eqn:?
  end.

Ltac case_rest :=
  repeat (unfold_tests;
          match goal with
          | |- context [match ?x with _ => _ end] => case_on x
          end; cbn).

(** If no event but the last satisfies [p], an event that satisfies [p] has
    nothing after it. *)
Lemma only_last (p : Event -> bool) (l : list Event) :
  existsb p (removelast l) = false ->
  forall pre e post, l = (pre ++ e :: post)%list -> p e = true -> post = [].
Proof.
  intros Hl pre e post -> He.
  destruct post as [|e' post]; [reflexivity|exfalso].
  rewrite removelast_app in Hl by discriminate.
  rewrite existsb_app in Hl. apply orb_false_elim in Hl. destruct Hl as [_ Hl].
  change (removelast (e :: e' :: post)) with (e :: removelast (e' :: post)) in Hl.
  cbn [existsb] in Hl. rewrite He in Hl. discriminate.
Qed.


(** Check a property event by event on a trace that is known. *)
Ltac each_event tac :=
  repeat (apply Forall_cons; [tac|]); apply Forall_nil.

(** ** What procedures emit *)

Lemma emits_ret {A : Type} (P : Event -> Prop) (a : A) : emits P (ret a).
Proof. intros h. constructor. Qed.

Lemma emits_bind {A B : Type} (P : Event -> Prop) (m : M A) (f : A -> M B) :
  emits P m -> (forall a, emits P (f a)) -> emits P (bind m f).
Proof.
  intros Hm Hf h. unfold bind.
  specialize (Hm h). destruct (m h) as [a e1].
  specialize (Hf a (h ++ e1)%list). destruct (f a (h ++ e1)%list) as [b e2].
  cbn in *. apply Forall_app. split; assumption.
Qed.


(** Walk through a procedure down to its calls; [leaf] proves the property
    of the single events. *)
Ltac unfold_proc :=
  first
    [ progress unfold when
    | progress unfold backup_rom | progress unfold restore_rom
    | progress unfold backup_partition | progress unfold restore_partition
    | progress unfold backup_configs | progress unfold restore_configs
    | progress unfold backup_boot_image | progress unfold restore_boot_image
    | progress unfold backup_image | progress unfold restore_image
    | progress unfold backup_directory | progress unfold restore_directory
    | progress unfold backup_step | progress unfold restore_step
    | progress unfold backup_coordinator | progress unfold restore_coordinator ].

Ltac emits_step leaf :=
  lazymatch goal with
  | |- emits _ (bind _ _) => apply emits_bind; [|intro]
  | |- emits _ (ret _) => apply emits_ret
  | |- emits _ (match ?x with _ => _ end) => destruct x
  | |- emits _ (let _ := _ in _) => cbv zeta
  | |- emits _ _ =>
      first [ unfold_proc
            | intro; unfold_calls; cbv beta iota zeta delta [snd];
              each_event leaf ]
  end.

Ltac emits_auto leaf := repeat emits_step leaf.

(** ** Backup names *)

Lemma prefix_true_iff (p s : string) :
  String.prefix p s = true <-> exists post, s = p ++ post.
Proof.
  revert p; induction s as [|c s IH]; intros [|d p]; simpl.
  - split; [exists ""; reflexivity | reflexivity].
  - split; [discriminate | intros [post H]; discriminate].
  - split; [intros _; eexists; reflexivity | reflexivity].
  - destruct (Ascii.ascii_dec d c) as [->|Hne].
    + rewrite IH. split; intros [post H]; exists post; congruence.
    + split; [discriminate | intros [post H]; congruence].
Qed.

Lemma occurs_in_cons (sub : string) (c : ascii) (s : string) :
  occurs_in sub (String c s) <->
  String.prefix sub (String c s) = true \/ occurs_in sub s.
Proof.
  split.
  - intros [[|d pre] [post H]]; simpl in H.
    + left. apply prefix_true_iff. exists post. exact H.
    + right. exists pre, post. congruence.
  - intros [H | [pre [post H]]].
    + apply prefix_true_iff in H. destruct H as [post H].
      exists "", post. exact H.
    + exists (String c pre), post. simpl. congruence.
Qed.

Lemma find_npos_iff (sub s : string) :
  is_npos (find sub s) = true <-> ~ occurs_in sub s.
Proof.
  induction s as [|c s IH].
  - simpl. destruct sub as [|d sub]; simpl.
    + split; [discriminate | intros H; exfalso; apply H; exists "", ""; reflexivity].
    + split; [intros _ [[|e pre] [post H]]; discriminate | reflexivity].
  - rewrite occurs_in_cons. cbn [find].
    destruct (String.prefix sub (String c s)).
    + simpl. split; [discriminate | intros H; exfalso; apply H; left; reflexivity].
    + destruct (find sub s); simpl in *.
      * split; [discriminate | intros H; exfalso].
        assert (Hno : ~ occurs_in sub s) by (intros H'; apply H; right; exact H').
        apply IH in Hno. discriminate.
      * split; [intros _ [H | H]; [discriminate | now apply IH] | reflexivity].
Qed.

Lemma find_char_npos_iff (c : ascii) (s : string) :
  is_npos (find_char c s) = true <-> ~ In c (list_ascii_of_string s).
Proof.
  induction s as [|d s IH]; simpl.
  - split; [intros _ [] | reflexivity].
  - destruct (Ascii.eqb_spec d c) as [->|Hne]; simpl.
    + split; [discriminate | intros H; exfalso; apply H; left; reflexivity].
    + destruct (find_char c s); simpl in *.
      * split; [discriminate | intros H; exfalso].
        assert (Hin : ~ In c (list_ascii_of_string s)) by (intros Hin; apply H; right; exact Hin).
        apply IH in Hin. discriminate.
      * split; [intros _ [H | H]; [congruence | now apply IH] | reflexivity].
Qed.

(** C8: a backup name is accepted exactly when it is non-empty, does not start
    with a dot, contains no ".." and contains no '/'; the five names of the
    design document are classified as it says. *)
Theorem is_valid_backup_name_spec :
  (forall name : string,
      is_valid_backup_name name = true <->
      name <> ""
      /\ (forall rest, name <> String "." rest)
      /\ ~ occurs_in ".." name
      /\ ~ In "/"%char (list_ascii_of_string name))
  /\ is_valid_backup_name "" = false
  /\ is_valid_backup_name ".hidden" = false
  /\ is_valid_backup_name "a/b" = false
  /\ is_valid_backup_name "x..y" = false
  /\ is_valid_backup_name "2024.01.01-00.00.00" = true.
Proof.
  split; [|repeat split; reflexivity].
  intros name. unfold is_valid_backup_name.
  rewrite !andb_true_iff, find_npos_iff, find_char_npos_iff.
  assert (Hempty : negb (empty name) = true <-> name <> "").
  { destruct name; simpl; split; try congruence; intros H; now elim H. }
  assert (Hdot : negb (empty name) = true ->
                 (negb (Ascii.eqb (char0 name) ".") = true <->
                  forall rest, name <> String "." rest)).
  { destruct name as [|c rest]; simpl; [discriminate|]. intros _.
    destruct (Ascii.eqb_spec c "."%char) as [->|Hne]; simpl.
    - split; [discriminate | intros H; now elim (H rest)].
    - split; [intros _ r H; congruence | reflexivity]. }
  split.
  - intros [[[H1 H2] H3] H4]. repeat split; try assumption.
    + now apply Hempty.
    + now apply Hdot.
  - intros (H1 & H2 & H3 & H4). apply Hempty in H1.
    repeat split; try assumption. now apply Hdot.
Qed.

(** ** Target set *)

Lemma parse_targets_list_cons (target : string) (rest : list string) (result : Z) :
  parse_targets_list (target :: rest) result =
  match target_bits target with
  | Some bits => parse_targets_list rest (Z.lor result bits)
  | None => 0
  end.
Proof.
  unfold target_bits. cbn [parse_targets_list].
  repeat match goal with
         | |- context [if ?b then _ else _] => destruct b; try reflexivity
         end.
Qed.

Lemma parse_targets_list_unknown (l : list string) (result : Z) :
  forallb known_target l = false -> parse_targets_list l result = 0.
Proof.
  revert result; induction l as [|t l IH]; intros result; [discriminate|].
  rewrite parse_targets_list_cons. cbn [forallb]. unfold known_target at 1.
  destruct (target_bits t); [apply IH | reflexivity].
Qed.

Lemma parse_targets_list_testbit (l : list string) (result i : Z) :
  forallb known_target l = true ->
  Z.testbit (parse_targets_list l result) i =
  Z.testbit result i || existsb (token_testbit i) l.
Proof.
  revert result; induction l as [|t l IH]; intros result Hk.
  - simpl. now rewrite orb_false_r.
  - rewrite parse_targets_list_cons. cbn [forallb existsb] in *.
    unfold known_target at 1 in Hk. unfold token_testbit at 1.
    destruct (target_bits t) as [bits|]; [|discriminate].
    rewrite IH by exact Hk. rewrite Z.lor_spec. now rewrite orb_assoc.
Qed.

Lemma forallb_same_elements {A : Type} (f : A -> bool) (l1 l2 : list A) :
  (forall x, In x l1 <-> In x l2) -> forallb f l1 = forallb f l2.
Proof.
  intros H. apply eq_true_iff_eq. rewrite !forallb_forall.
  split; intros Hf x Hx; apply Hf, H, Hx.
Qed.

Lemma existsb_same_elements {A : Type} (f : A -> bool) (l1 l2 : list A) :
  (forall x, In x l1 <-> In x l2) -> existsb f l1 = existsb f l2.
Proof.
  intros H. apply eq_true_iff_eq. rewrite !existsb_exists.
  split; intros [x [Hx Hf]]; exists x; (split; [apply H, Hx | exact Hf]).
Qed.

Lemma parse_targets_list_same_elements (l1 l2 : list string) :
  (forall t, In t l1 <-> In t l2) ->
  parse_targets_list l1 0 = parse_targets_list l2 0.
Proof.
  intros H. pose proof (forallb_same_elements known_target l1 l2 H) as Hk.
  destruct (forallb known_target l1) eqn:H1.
  - apply Z.bits_inj. intros i.
    rewrite !parse_targets_list_testbit by congruence.
    f_equal. now apply existsb_same_elements.
  - rewrite !parse_targets_list_unknown by congruence. reflexivity.
Qed.

(** C4: parsing maps every list of recognised tokens to the union of their
    bits ("all" being the full set), maps every input with an unrecognised
    token (the empty input included) to the empty set, and depends neither on
    the order nor on the repetition of tokens. *)
Theorem parse_targets_string_spec :
  (* the tokens and their bits *)
  (parse_targets_string "system" = BACKUP_TARGET_SYSTEM
   /\ parse_targets_string "cache" = BACKUP_TARGET_CACHE
   /\ parse_targets_string "data" = BACKUP_TARGET_DATA
   /\ parse_targets_string "boot" = BACKUP_TARGET_BOOT
   /\ parse_targets_string "config" = BACKUP_TARGET_CONFIG
   /\ parse_targets_string "all" = BACKUP_TARGET_ALL
   /\ BACKUP_TARGET_ALL = 31)
  (* the input is split on commas *)
  /\ split "system,cache" "," = ["system"; "cache"]
  /\ split "" "," = [""]
  (* recognised tokens: the result is the union of their bits *)
  /\ (forall tokens i,
         forallb known_target tokens = true ->
         Z.testbit (parse_targets_list tokens 0) i = existsb (token_testbit i) tokens)
  (* an unrecognised token anywhere: the empty set *)
  /\ (forall tokens t,
         In t tokens -> target_bits t = None -> parse_targets_list tokens 0 = 0)
  /\ (forall targets t,
         In t (split targets ",") -> target_bits t = None ->
         parse_targets_string targets = 0)
  /\ parse_targets_string "" = 0
  /\ parse_targets_list [] 0 = 0
  /\ parse_targets_string "bogus" = 0
  /\ parse_targets_string "system,bogus,data" = 0
  /\ parse_targets_string "system,,data" = 0
  (* neither order nor repetition matters *)
  /\ (forall tokens1 tokens2,
         (forall t, In t tokens1 <-> In t tokens2) ->
         parse_targets_list tokens1 0 = parse_targets_list tokens2 0)
  /\ (forall targets1 targets2,
         (forall t, In t (split targets1 ",") <-> In t (split targets2 ",")) ->
         parse_targets_string targets1 = parse_targets_string targets2)
  /\ parse_targets_string "data,system" = parse_targets_string "system,data"
  /\ parse_targets_string "boot,boot,cache" = parse_targets_string "cache,boot"
  /\ parse_targets_string "all" = parse_targets_string "system,cache,data,boot,config".
Proof.
  assert (Hunknown : forall tokens t,
             In t tokens -> target_bits t = None -> parse_targets_list tokens 0 = 0).
  { intros tokens t Hin Ht. apply parse_targets_list_unknown.
    destruct (forallb known_target tokens) eqn:Hk; [|reflexivity].
    rewrite forallb_forall in Hk. specialize (Hk t Hin).
    unfold known_target in Hk. now rewrite Ht in Hk. }
  repeat match goal with |- _ /\ _ => split end; try reflexivity.
  - intros tokens i Hk.
    rewrite parse_targets_list_testbit by exact Hk. now rewrite Z.testbit_0_l.
  - exact Hunknown.
  - intros targets t. apply Hunknown.
  - exact parse_targets_list_same_elements.
  - intros t1 t2. apply parse_targets_list_same_elements.
Qed.

(** ** Configuration file and thumbnail *)

(** C5: the config/thumbnail step, in both directions.  The step fails
    exactly when a copy fails, and the failed copy is the last thing it does;
    otherwise it reports missing files exactly when a source was not found,
    and success when both were found.  Unless a copy fails both sources are
    examined, the configuration file first, and every source found is copied
    to its counterpart. *)
Theorem configs_step_result (env : Env) (rom : Rom) (backup_dir : string)
    (h : list Event) :
  let b := backup_configs env rom backup_dir h in
  let r := restore_configs env rom backup_dir h in
  let config_backup := backup_dir ++ "/" ++ BACKUP_NAME_CONFIG in
  let thumbnail_backup := backup_dir ++ "/" ++ BACKUP_NAME_THUMBNAIL in
  (fst b = (if existsb copy_failed (snd b) then FAILED
            else if existsb source_missing (snd b) then FILES_MISSING
            else SUCCEEDED)
   /\ (forall pre e post,
          snd b = (pre ++ e :: post)%list -> copy_failed e = true -> post = [])
   /\ (fst b <> FAILED ->
       stat_paths (snd b) = [config_path rom; thumbnail_path rom])
   /\ map fst (copies (snd b)) = found_paths (snd b)
   /\ incl (copies (snd b))
         [(config_path rom, config_backup); (thumbnail_path rom, thumbnail_backup)])
  /\
  (fst r = (if existsb copy_failed (snd r) then FAILED
            else if existsb source_missing (snd r) then FILES_MISSING
            else SUCCEEDED)
   /\ (forall pre e post,
          snd r = (pre ++ e :: post)%list -> copy_failed e = true -> post = [])
   /\ (fst r <> FAILED ->
       stat_paths (snd r) = [config_backup; thumbnail_backup])
   /\ map fst (copies (snd r)) = found_paths (snd r)
   /\ incl (copies (snd r))
         [(config_backup, config_path rom); (thumbnail_backup, thumbnail_path rom)]).
Proof.
  cbv zeta. split.
  - cases_of_run (backup_configs env rom backup_dir h).
    unfold backup_configs. run_proc; this_run;
      (split; [reflexivity|];
       split; [apply only_last; reflexivity|];
       split; [intros; try reflexivity; congruence|];
       split; [reflexivity | intros x Hx; cbn in *; tauto]).
  - cases_of_run (restore_configs env rom backup_dir h).
    unfold restore_configs. run_proc; this_run;
      (split; [reflexivity|];
       split; [apply only_last; reflexivity|];
       split; [intros; try reflexivity; congruence|];
       split; [reflexivity | intros x Hx; cbn in *; tauto]).
Qed.

(** ** Partitions: missing input *)

(** C7: when the live path does not exist, backing up a partition reports
    missing files and does nothing but the [stat] and a warning; when the
    archive does not exist in the bundle, restoring a partition reports
    missing files and does nothing but the [stat] and a warning. *)
Theorem partition_missing_input (env : Env)
    (path backup_dir archive_name : string) (is_image : bool) (image_size : Z)
    (exclusions : list string) (h : list Event) :
  let archive := backup_dir ++ "/" ++ archive_name in
  let b := backup_partition env path backup_dir archive_name is_image exclusions h in
  let r := restore_partition env path backup_dir archive_name is_image image_size
             exclusions h in
  (stat_ok (env_stat env h path) = false ->
   fst b = FILES_MISSING
   /\ snd b = [EvStat path (env_stat env h path);
               EvLog LOGW "=== %s does not exist ===" [path]]
   /\ forallb read_only_event (snd b) = true)
  /\
  (stat_ok (env_stat env h archive) = false ->
   fst r = FILES_MISSING
   /\ snd r = [EvStat archive (env_stat env h archive);
               EvLog LOGW "=== %s does not exist ===" [archive]]
   /\ forallb read_only_event (snd r) = true).
Proof.
  cbv zeta. split; intros Hmissing.
  - unfold backup_partition. unfold_calls. cbn. rewrite Hmissing. cbn.
    repeat split.
  - unfold restore_partition. unfold_calls. cbn in *. rewrite Hmissing. cbn.
    repeat split.
Qed.

Lemma partition_missing_input_witness :
  backup_partition (sample_env ["/raw/cache/multiboot/dual/cache"] [] 0)
    "/raw/cache/multiboot/dual/cache" "/backups/b1" "cache.tar" false
    ["multiboot"] [] =
  (FILES_MISSING,
   [EvStat "/raw/cache/multiboot/dual/cache" StatENOENT;
    EvLog LOGW "=== %s does not exist ===" ["/raw/cache/multiboot/dual/cache"]])
  /\
  restore_partition (sample_env ["/backups/b1/cache.tar"] [] 0)
    "/raw/images/cache.img" "/backups/b1" "cache.tar" true 4096 [] [] =
  (FILES_MISSING,
   [EvStat "/backups/b1/cache.tar" StatENOENT;
    EvLog LOGW "=== %s does not exist ===" ["/backups/b1/cache.tar"]]).
Proof.
  split.
  - destruct (proj1 (partition_missing_input
                       (sample_env ["/raw/cache/multiboot/dual/cache"] [] 0)
                       "/raw/cache/multiboot/dual/cache" "/backups/b1" "cache.tar"
                       false 0 ["multiboot"] []) eq_refl) as (Hr & He & _).
    apply injective_projections; [exact Hr | exact He].
  - destruct (proj2 (partition_missing_input
                       (sample_env ["/backups/b1/cache.tar"] [] 0)
                       "/raw/images/cache.img" "/backups/b1" "cache.tar"
                       true 4096 [] []) eq_refl) as (Hr & He & _).
    apply injective_projections; [exact Hr | exact He].
Defined.

(** ** Image-mode passes *)

(** C1, as stated, fails: with an archive pass that succeeds and an unmount
    that fails, both image-mode passes return failure. *)
Lemma image_unmount_failure_downgrades :
  let env := sample_env [] ["umount"] 0 in
  let b := backup_image env "/backups/b1/system.tar"
             "/raw/images/system.img" ["multiboot"] [] in
  let r := restore_image env "/backups/b1/system.tar"
             "/raw/images/system.img" 4096 [] [] in
  b = (false,
       [EvMkdirRecursive "/mb_mnt" 493 MkdirOk;
        EvFsckExt4Image "/raw/images/system.img";
        EvMount "/raw/images/system.img" "/mb_mnt" "ext4" 1 "" true;
        EvOpendir "/mb_mnt" true;
        EvReaddir "/mb_mnt" [".."; "."; "app"; "media"; "multiboot"] false;
        EvTarCreate "/backups/b1/system.tar" "/mb_mnt" ["app"; "media"] true;
        EvUmount "/mb_mnt" false;
        EvLog LOGE "Failed to unmount %s: %s" ["/mb_mnt"]])
  /\ existsb archive_pass_succeeded (snd r) = true
  /\ existsb unmount_failed (snd r) = true
  /\ fst r = false.
Proof. cbv zeta. repeat split. Qed.

(** C1, amended: an image-mode pass succeeds exactly when the archive pass
    succeeded and the unmount succeeded; a failed unmount is logged as an
    error and makes the pass fail. *)
Theorem image_pass_result (env : Env) (archive image : string) (size : Z)
    (exclusions : list string) (h : list Event) :
  let b := backup_image env archive image exclusions h in
  let r := restore_image env archive image size exclusions h in
  (fst b = existsb archive_pass_succeeded (snd b)
           && existsb unmount_succeeded (snd b)
   /\ existsb unmount_error_logged (snd b) = existsb unmount_failed (snd b)
   /\ (existsb unmount_failed (snd b) = true -> fst b = false))
  /\
  (fst r = existsb archive_pass_succeeded (snd r)
           && existsb unmount_succeeded (snd r)
   /\ existsb unmount_error_logged (snd r) = existsb unmount_failed (snd r)
   /\ (existsb unmount_failed (snd r) = true -> fst r = false)).
Proof.
  cbv zeta. split.
  - cases_of_run (backup_image env archive image exclusions h).
    unfold backup_image, backup_directory. run_proc; this_run; case_rest;
      (split; [reflexivity | split; [reflexivity | intros; congruence]]).
  - cases_of_run (restore_image env archive image size exclusions h).
    unfold restore_image, restore_directory. run_proc; this_run; case_rest;
      (split; [reflexivity | split; [reflexivity | intros; congruence]]).
Qed.

Lemma image_pass_result_witness :
  let env := sample_env [] ["umount"] 0 in
  fst (backup_image env "/backups/b1/data.tar" "/raw/images/data.img"
         ["media"; "multiboot"] []) = false
  /\ fst (restore_image env "/backups/b1/data.tar" "/raw/images/data.img"
            4096 ["media"] []) = false.
Proof.
  cbv zeta.
  pose proof (image_pass_result (sample_env [] ["umount"] 0)
                "/backups/b1/data.tar" "/raw/images/data.img" 4096
                ["media"] []) as Hr.
  pose proof (image_pass_result (sample_env [] ["umount"] 0)
                "/backups/b1/data.tar" "/raw/images/data.img" 4096
                ["media"; "multiboot"] []) as Hb.
  cbv zeta in Hr, Hb.
  split.
  - exact (proj2 (proj2 (proj1 Hb)) eq_refl).
  - exact (proj2 (proj2 (proj2 Hr)) eq_refl).
Defined.

(** C3, as stated, fails: the image is mounted and the unmount is attempted,
    but when the unmount fails the mount point is not removed. *)
Lemma image_unmount_failure_keeps_mount_point :
  let env := sample_env [] ["umount"] 0 in
  let b := backup_image env "/backups/b1/system.tar"
             "/raw/images/system.img" ["multiboot"] [] in
  let r := restore_image env "/backups/b1/system.tar"
             "/raw/images/system.img" 4096 [] [] in
  (existsb mount_succeeded (snd b) = true
   /\ filter unmount_attempt (snd b) = [EvUmount "/mb_mnt" false]
   /\ existsb mount_point_removal (snd b) = false)
  /\
  (existsb mount_succeeded (snd r) = true
   /\ filter unmount_attempt (snd r) = [EvUmount "/mb_mnt" false]
   /\ existsb mount_point_removal (snd r) = false).
Proof. cbv zeta. repeat split. Qed.

(** C3, amended: in both image-mode passes a successful mount is followed,
    whatever the body did, by exactly one unmount attempt, which comes after
    the body; the removal of the mount point follows exactly when that
    unmount succeeded, and without a successful mount nothing is unmounted or
    removed. *)
Theorem image_mount_scope (env : Env) (archive image : string) (size : Z)
    (exclusions : list string) (h : list Event) :
  mount_scope_kept image MS_RDONLY (backup_image env archive image exclusions h)
  /\ mount_scope_kept image 0 (restore_image env archive image size exclusions h).
Proof.
  split.
  - cases_of_run (backup_image env archive image exclusions h).
    unfold backup_image, backup_directory. run_proc; this_run;
      unfold mount_scope_kept; cbn;
      first [ left; split; reflexivity
            | right; split; [reflexivity | split; reflexivity]
            | split; [reflexivity | split; reflexivity] ].
  - cases_of_run (restore_image env archive image size exclusions h).
    unfold restore_image, restore_directory. run_proc; this_run;
      unfold mount_scope_kept; cbn;
      first [ left; split; reflexivity
            | right; split; [reflexivity | split; reflexivity]
            | split; [reflexivity | split; reflexivity] ].
Qed.

(** The scope is released also when the body fails: here the archive cannot
    be written, respectively extracted. *)
Lemma image_mount_scope_witness :
  let b := backup_image (sample_env [] ["tar_create"] 0)
             "/backups/b1/cache.tar" "/raw/images/cache.img" ["multiboot"] [] in
  let r := restore_image (sample_env [] ["tar_extract"] 0)
             "/backups/b1/cache.tar" "/raw/images/cache.img" 4096 [] [] in
  (mount_scope_kept "/raw/images/cache.img" MS_RDONLY b
   /\ fst b = false
   /\ filter mount_table_event (snd b) =
        [EvMount "/raw/images/cache.img" "/mb_mnt" "ext4" 1 "" true;
         EvUmount "/mb_mnt" true; EvRmdir "/mb_mnt"])
  /\
  (mount_scope_kept "/raw/images/cache.img" 0 r
   /\ fst r = false
   /\ filter mount_table_event (snd r) =
        [EvMount "/raw/images/cache.img" "/mb_mnt" "ext4" 0 "" true;
         EvUmount "/mb_mnt" true; EvRmdir "/mb_mnt"]).
Proof.
  cbv zeta. split.
  - split; [|split; reflexivity].
    exact (proj1 (image_mount_scope (sample_env [] ["tar_create"] 0)
                    "/backups/b1/cache.tar" "/raw/images/cache.img" 4096
                    ["multiboot"] [])).
  - split; [|split; reflexivity].
    exact (proj2 (image_mount_scope (sample_env [] ["tar_extract"] 0)
                    "/backups/b1/cache.tar" "/raw/images/cache.img" 4096
                    [] [])).
Defined.

(** ** The ROM id in the ramdisk *)










(** Two restores in a row of a bundle whose ramdisk already carries the id of
    another ROM: both write the same boot image, whose ramdisk has the one
    [romid] entry of the target ROM. *)
Lemma restore_boot_image_twice_sample :
  let env := sample_env [] [] 4096 in
  let written := mkBootImage
                   (List.concat (map entry_data (set_romid "dual" sample_cpio)))
                   [] TypeAndroid TypeAndroid (list_byte_of_string "kernel") in
  set_romid "dual" sample_cpio =
    [mkCpioEntry "init" mode_0755 (list_byte_of_string "#!");
     mkCpioEntry "default.prop" mode_0664 (list_byte_of_string "ro.x=1");
     mkCpioEntry "romid" mode_0664 (list_byte_of_string "dual")]
  /\ fst (repeatedly 2
            (restore_boot_image sample_constants env sample_rom "/backups/b1") [])
     = [SUCCEEDED; SUCCEEDED]
  /\ filter boot_image_written
       (snd (repeatedly 2
               (restore_boot_image sample_constants env sample_rom "/backups/b1") []))
     = [EvBootImageCreateFile "/data/media/0/MultiBoot/dual/boot.img" written true;
        EvBootImageCreateFile "/data/media/0/MultiBoot/dual/boot.img" written true].
Proof. cbv zeta. repeat split. Qed.

(** ** Exclusions *)

Lemma excluded_not_kept (name : string) (exclusions names : list string) :
  In name exclusions ->
  ~ In name
      (filter (fun d_name =>
                 negb ((d_name =? ".")%string
                       || (d_name =? "..")%string
                       || existsb (String.eqb d_name) exclusions))
              names).
Proof.
  intros Hin. rewrite filter_In. intros [_ Hkeep].
  apply negb_true_iff in Hkeep. apply orb_false_elim in Hkeep.
  destruct Hkeep as [_ Hex].
  assert (Hyes : existsb (String.eqb name) exclusions = true).
  { apply existsb_exists. exists name. split; [exact Hin | apply String.eqb_refl]. }
  congruence.
Qed.

Section Exclusions.

Variable K : Constants.
Variable env : Env.

Lemma backup_directory_omits (output_file directory name : string)
    (exclusions : list string) :
  In name exclusions ->
  emits (archive_omits name) (backup_directory env output_file directory exclusions).
Proof.
  intros Hin. unfold backup_directory.
  emits_auto ltac:(first [exact I | unfold archive_omits; now apply excluded_not_kept]).
Qed.



End Exclusions.



(** ** The coordinator *)

Lemma same_runs_bind {A B : Type} (m1 m2 : M A) (f1 f2 : A -> M B) :
  same_runs m1 m2 -> (forall a, same_runs (f1 a) (f2 a)) ->
  same_runs (bind m1 f1) (bind m2 f2).
Proof.
  intros Hm Hf h. unfold bind. rewrite Hm.
  destruct (m2 h) as [a e1]. now rewrite Hf.
Qed.

Lemma same_runs_refl {A : Type} (m : M A) : same_runs m m.
Proof. intros h. reflexivity. Qed.

(** The announcement of the selected targets, whatever follows it. *)
Lemma selection_log_run {A : Type} (title : string) (rom : Rom) (dir : string)
    (targets : Z) (k : M A) (h : list Event) :
  (log LOGI title [] ;;
   log LOGI "- ROM ID: %s" [id rom] ;;
   log LOGI "- Targets:" [] ;;
   when (has_target targets BACKUP_TARGET_SYSTEM)
     (log LOGI "  - System: %s" [full_system_path rom]) ;;
   when (has_target targets BACKUP_TARGET_CACHE)
     (log LOGI "  - Cache: %s" [full_cache_path rom]) ;;
   when (has_target targets BACKUP_TARGET_DATA)
     (log LOGI "  - Data: %s" [full_data_path rom]) ;;
   when (has_target targets BACKUP_TARGET_BOOT)
     (log LOGI "  - Boot image: %s" [boot_image_path rom]) ;;
   when (has_target targets BACKUP_TARGET_CONFIG)
     (log LOGI "  - Configs: %s" [config_path rom] ;;
      log LOGI "             %s" [thumbnail_path rom]) ;;
   log LOGI "- Backup directory: %s" [dir] ;;
   k) h
  = let (a, e) := k (h ++ selection_log title rom dir targets)%list in
    (a, (selection_log title rom dir targets ++ e)%list).
Proof.
  unfold selection_log.
  destruct (has_target targets BACKUP_TARGET_SYSTEM),
           (has_target targets BACKUP_TARGET_CACHE),
           (has_target targets BACKUP_TARGET_DATA),
           (has_target targets BACKUP_TARGET_BOOT),
           (has_target targets BACKUP_TARGET_CONFIG);
    unfold bind, when, log, ret; cbn;
    rewrite <- ?app_assoc; cbn; destruct (k _); reflexivity.
Qed.

(** The blocks run the selected steps, stop at the first aborting outcome,
    and go on with [k] when there is none. *)
Lemma blocks_run_steps (run : Step -> M StepOutcome) (targets : Z)
    (steps : list Step) (k : M bool) (h : list Event) :
  blocks run targets steps k h =
  let (p, e1) := run_steps run (selected targets steps) h in
  if fst p then let (b, e2) := k (h ++ e1)%list in (b, (e1 ++ e2)%list)
  else (false, e1).
Proof.
  revert h; induction steps as [|s rest IH]; intros h.
  - cbn. rewrite app_nil_r. destruct (k h). reflexivity.
  - cbn [blocks selected filter]. unfold step_block.
    fold (selected targets rest).
    destruct (has_target targets (step_target s)).
    + cbn [run_steps]. unfold bind, ret.
      destruct (run s h) as [o e0]. cbn. rewrite !app_nil_r.
      destruct (aborting o).
      * cbn. now rewrite app_nil_r.
      * rewrite IH.
        destruct (run_steps run (selected targets rest) (h ++ e0)%list) as [p e1].
        cbn. rewrite app_nil_r. destruct (fst p); [|reflexivity].
        rewrite <- app_assoc. destruct (k _). now rewrite app_assoc.
    + unfold bind, ret. cbn. rewrite app_nil_r. rewrite IH.
      destruct (run_steps run (selected targets rest) h) as [p e1].
      destruct (fst p); [destruct (k _)|]; reflexivity.
Qed.

Section Refinement.

Variable K : Constants.
Variable env : Env.
Variable rom : Rom.
Variable dir : string.
Variable targets : Z.

(** The block of a step as [backup_rom] and [restore_rom] write it, for a
    step without precondition. *)
Lemma plain_block (run : Step -> M StepOutcome) (s : Step) (m : M Result) :
  same_runs (run s) (r <- m ;; ret (Ran r)) ->
  same_runs
    (if has_target targets (step_target s) then
       r <- m ;; ret (Result_eqb r FAILED)
     else ret false)
    (step_block run targets s).
Proof.
  intros Hrun h. unfold step_block.
  destruct (has_target targets (step_target s)); [|reflexivity].
  unfold bind at 2. rewrite Hrun. unfold bind, ret.
  destruct (m h) as [r e]. cbn. rewrite !app_nil_r. destruct r; reflexivity.
Qed.

Lemma backup_step_runs (s : Step) (m : M Result) :
  backup_step env rom dir s = (r <- m ;; ret (Ran r)) ->
  same_runs (backup_step env rom dir s) (r <- m ;; ret (Ran r)).
Proof. intros -> h. reflexivity. Qed.

Lemma backup_rom_blocks (h : list Event) :
  targets <> 0 ->
  backup_rom env rom dir targets h =
  let banner := selection_log "Backing up:" rom dir targets in
  let (b, e) := blocks (backup_step env rom dir) targets step_order (ret true)
                  (h ++ banner)%list in
  (b, (banner ++ e)%list).
Proof.
  intros Hnz. unfold backup_rom.
  apply Z.eqb_neq in Hnz. rewrite Hnz. cbv zeta.
  rewrite selection_log_run.
  match goal with
  | |- (let (_, _) := ?k ?h' in _) = (let (_, _) := ?k' ?h' in _) =>
      assert (Hk : same_runs k k'); [|now rewrite Hk]
  end.
  unfold step_order. cbn [blocks].
  repeat (apply same_runs_bind;
          [ first [ apply (plain_block _ StepBoot)
                  | apply (plain_block _ StepConfig)
                  | apply (plain_block _ StepSystem)
                  | apply (plain_block _ StepCache)
                  | apply (plain_block _ StepData) ];
            apply backup_step_runs; reflexivity
          | intros [|]; [apply same_runs_refl|] ]).
  apply same_runs_refl.
Qed.

Lemma backup_rom_refines (h : list Event) :
  targets <> 0 ->
  backup_rom env rom dir targets h =
  let banner := selection_log "Backing up:" rom dir targets in
  let (p, e) := backup_coordinator env rom dir targets (h ++ banner)%list in
  (fst p, (banner ++ e)%list).
Proof.
  intros Hnz. rewrite backup_rom_blocks by exact Hnz. cbv zeta.
  rewrite blocks_run_steps. unfold backup_coordinator.
  destruct (run_steps _ _ _) as [p e1]. destruct p as [[|] l]; cbn.
  - now rewrite app_nil_r.
  - reflexivity.
Qed.

Lemma system_block :
  same_runs
    (if has_target targets BACKUP_TARGET_SYSTEM then
       system_partition <- get_system_partition env ;;
       image_size <- mount_get_total_size env system_partition ;;
       if image_size =? 0 then
         log LOGE "Failed to get the size of the system partition" [] ;;
         ret true
       else
         r <- restore_partition env (full_system_path rom) dir BACKUP_NAME_SYSTEM
                (system_is_image rom) image_size [] ;;
         ret (Result_eqb r FAILED)
     else ret false)
    (step_block (restore_step K env rom dir) targets StepSystem).
Proof.
  intros h. unfold step_block. cbn [step_target restore_step].
  destruct (has_target targets BACKUP_TARGET_SYSTEM); [|reflexivity].
  cbv beta iota zeta delta
    [bind ret get_system_partition mount_get_total_size log].
  destruct (_ =? 0); [reflexivity|].
  destruct (restore_partition _ _ _ _ _ _ _ _) as [r e].
  cbv beta iota zeta. rewrite !app_nil_r. destruct r; reflexivity.
Qed.

Lemma restore_step_runs (s : Step) (m : M Result) :
  restore_step K env rom dir s = (r <- m ;; ret (Ran r)) ->
  same_runs (restore_step K env rom dir s) (r <- m ;; ret (Ran r)).
Proof. intros -> h. reflexivity. Qed.

Lemma restore_rom_blocks (h : list Event) :
  targets <> 0 ->
  restore_rom K env rom dir targets h =
  let banner := selection_log "Restoring:" rom dir targets in
  let multiboot_dir := MULTIBOOT_DIR K ++ "/" ++ id rom in
  let (b, e) :=
    (made <- mkdir_recursive env multiboot_dir mode_0775 ;;
     if negb (mkdir_ok made) then
       log LOGE "%s: Failed to create directory: %s" [multiboot_dir] ;;
       ret false
     else
       blocks (restore_step K env rom dir) targets [StepBoot; StepConfig]
         (fix_multiboot_permissions ;;
          blocks (restore_step K env rom dir) targets
            [StepSystem; StepCache; StepData] (ret true)))
      (h ++ banner)%list in
  (b, (banner ++ e)%list).
Proof.
  intros Hnz. unfold restore_rom.
  apply Z.eqb_neq in Hnz. rewrite Hnz. cbv zeta.
  rewrite selection_log_run.
  match goal with
  | |- (let (_, _) := ?k ?h' in _) = (let (_, _) := ?k' ?h' in _) =>
      assert (Hk : same_runs k k'); [|now rewrite Hk]
  end.
  cbn [blocks].
  apply same_runs_bind; [apply same_runs_refl|]. intros made.
  destruct (negb (mkdir_ok made)); [apply same_runs_refl|].
  do 2 (apply same_runs_bind;
        [ first [ apply (plain_block _ StepBoot)
                | apply (plain_block _ StepConfig) ];
          apply restore_step_runs; reflexivity
        | intros [|]; [apply same_runs_refl|] ]).
  apply same_runs_bind; [apply same_runs_refl|]. intros _.
  apply same_runs_bind; [apply system_block|].
  intros [|]; [apply same_runs_refl|].
  do 2 (apply same_runs_bind;
        [ first [ apply (plain_block _ StepCache)
                | apply (plain_block _ StepData) ];
          apply restore_step_runs; reflexivity
        | intros [|]; [apply same_runs_refl|] ]).
  apply same_runs_refl.
Qed.

Lemma restore_blocks_run_steps (h : list Event) :
  blocks (restore_step K env rom dir) targets [StepBoot; StepConfig]
    (fix_multiboot_permissions ;;
     blocks (restore_step K env rom dir) targets
       [StepSystem; StepCache; StepData] (ret true)) h
  = let (p, e) :=
      (p1 <- run_steps (restore_step K env rom dir)
               (selected targets [StepBoot; StepConfig]) ;;
       if negb (fst p1) then ret p1
       else
         fix_multiboot_permissions ;;
         p2 <- run_steps (restore_step K env rom dir)
                 (selected targets [StepSystem; StepCache; StepData]) ;;
         ret (fst p2, (snd p1 ++ snd p2)%list)) h in
    (fst p, e).
Proof.
  rewrite blocks_run_steps.
  cbv beta iota zeta delta [bind ret fix_multiboot_permissions].
  destruct (run_steps _ (selected targets [StepBoot; StepConfig]) h)
    as [[ok1 log1] e1].
  destruct ok1; cbv beta iota zeta delta [fst snd negb].
  - rewrite blocks_run_steps.
    destruct (run_steps _ (selected targets [StepSystem; StepCache; StepData]) _)
      as [[ok2 log2] e2].
    destruct ok2; cbv beta iota zeta delta [fst snd];
      rewrite ?app_nil_r; reflexivity.
  - rewrite ?app_nil_r. reflexivity.
Qed.

Lemma restore_rom_refines (h : list Event) :
  targets <> 0 ->
  restore_rom K env rom dir targets h =
  let banner := selection_log "Restoring:" rom dir targets in
  let (p, e) := restore_coordinator K env rom dir targets (h ++ banner)%list in
  (fst p, (banner ++ e)%list).
Proof.
  intros Hnz. rewrite restore_rom_blocks by exact Hnz. cbv zeta.
  unfold restore_coordinator. cbv zeta.
  set (hb := (h ++ selection_log "Restoring:" rom dir targets)%list).
  set (coord := (p1 <- run_steps _ _ ;; _)%proc).
  set (blks := blocks _ _ _ _).
  assert (Hb : forall h', blks h' = let (p, e) := coord h' in (fst p, e))
    by apply restore_blocks_run_steps.
  clearbody blks coord.
  cbv beta iota zeta delta [bind ret log mkdir_recursive].
  destruct (negb _).
  - reflexivity.
  - rewrite Hb. destruct (coord _) as [p e]. reflexivity.
Qed.

End Refinement.

(** The log of a run of steps: the steps gone through are an initial segment
    of the steps given, all of them when the run succeeds; the run succeeds
    exactly when no outcome aborts; and only the last outcome can abort. *)
Lemma run_steps_log (run : Step -> M StepOutcome) (steps : list Step)
    (h : list Event) :
  let p := fst (run_steps run steps h) in
  (exists rest, steps = (map fst (snd p) ++ rest)%list
                /\ (fst p = true -> rest = []))
  /\ fst p = negb (existsb aborting (map snd (snd p)))
  /\ existsb aborting (map snd (removelast (snd p))) = false.
Proof.
  revert h; induction steps as [|s rest IH]; intros h; cbn.
  - split; [exists []; split; reflexivity | split; reflexivity].
  - unfold bind, ret. destruct (run s h) as [o e0].
    destruct (aborting o) eqn:Ha; cbn.
    + rewrite Ha. split; [|split; reflexivity].
      exists rest. split; [reflexivity | discriminate].
    + specialize (IH (h ++ e0)%list). cbv zeta in IH.
      destruct (run_steps run rest (h ++ e0)%list) as [[ok l] e1]. cbn in *.
      destruct IH as ((rest' & Hrest & Hall) & Hok & Hlast).
      rewrite Ha. cbn. split; [|split].
      * exists rest'. split; [now rewrite Hrest at 1 | exact Hall].
      * exact Hok.
      * destruct l as [|so l]; [reflexivity|].
        cbn [map existsb snd]. rewrite Ha. exact Hlast.
Qed.

Lemma run_steps_outcomes (P : Step -> StepOutcome -> Prop)
    (run : Step -> M StepOutcome) (steps : list Step) (h : list Event) :
  (forall s h', P s (fst (run s h'))) ->
  Forall (fun so => P (fst so) (snd so)) (snd (fst (run_steps run steps h))).
Proof.
  intros Hrun. revert h; induction steps as [|s rest IH]; intros h; cbn.
  - constructor.
  - unfold bind, ret. specialize (Hrun s h). destruct (run s h) as [o e0].
    destruct (aborting o); cbn in *.
    + constructor; [exact Hrun | constructor].
    + specialize (IH (h ++ e0)%list).
      destruct (run_steps run rest (h ++ e0)%list) as [[ok l] e1]. cbn in *.
      constructor; assumption.
Qed.

Lemma backup_step_ran (env : Env) (rom : Rom) (dir : string) (s : Step)
    (h : list Event) :
  fst (backup_step env rom dir s h) <> Refused.
Proof.
  unfold backup_step, bind, ret.
  match goal with
  | |- context [let (_, _) := ?m h in _] => destruct (m h) as [r e]
  end.
  discriminate.
Qed.

Lemma restore_step_refused (K : Constants) (env : Env) (rom : Rom)
    (dir : string) (s : Step) (h : list Event) :
  fst (restore_step K env rom dir s h) = Refused -> s = StepSystem.
Proof.
  destruct s; try reflexivity;
    unfold restore_step, bind, ret;
    match goal with
    | |- context [let (_, _) := ?m h in _] => destruct (m h) as [r e]
    end; discriminate.
Qed.

Lemma selected_app (targets : Z) (l1 l2 : list Step) :
  selected targets (l1 ++ l2) = (selected targets l1 ++ selected targets l2)%list.
Proof. apply filter_app. Qed.

Lemma restore_coordinator_log (K : Constants) (env : Env) (rom : Rom)
    (dir : string) (targets : Z) (h : list Event) :
  let p := fst (restore_coordinator K env rom dir targets h) in
  let made := env_mkdir_recursive env h (MULTIBOOT_DIR K ++ "/" ++ id rom)
                mode_0775 in
  (exists rest, selected targets step_order = (map fst (snd p) ++ rest)%list
                /\ (fst p = true -> rest = []))
  /\ fst p = mkdir_ok made && negb (existsb aborting (map snd (snd p)))
  /\ existsb aborting (map snd (removelast (snd p))) = false
  /\ Forall (fun so => snd so = Refused -> fst so = StepSystem) (snd p).
Proof.
  cbv zeta. unfold restore_coordinator.
  cbv beta iota zeta delta [bind ret log mkdir_recursive fix_multiboot_permissions].
  change step_order with ([StepBoot; StepConfig] ++ [StepSystem; StepCache; StepData])%list.
  rewrite selected_app.
  destruct (mkdir_ok _) eqn:Hmade; cbn [negb].
  - match goal with
    | |- context [run_steps ?run ?steps ?h1] =>
        pose proof (run_steps_log run steps h1) as H1;
        pose proof (run_steps_outcomes
                      (fun s o => o = Refused -> s = StepSystem) run steps h1
                      (restore_step_refused K env rom dir)) as F1;
        destruct (run_steps run steps h1) as [[ok1 log1] e1]
    end.
    cbv zeta in H1. cbn [fst snd] in H1, F1.
    destruct H1 as ((rest1 & Hsel1 & Hall1) & Hok1 & Hlast1).
    destruct ok1; cbn [fst snd negb andb].
    + match goal with
      | |- context [run_steps ?run ?steps ?h2] =>
          pose proof (run_steps_log run steps h2) as H2;
          pose proof (run_steps_outcomes
                        (fun s o => o = Refused -> s = StepSystem) run steps h2
                        (restore_step_refused K env rom dir)) as F2;
          destruct (run_steps run steps h2) as [[ok2 log2] e2]
      end.
      cbv zeta in H2. cbn [fst snd] in H2, F2 |- *.
      destruct H2 as ((rest2 & Hsel2 & Hall2) & Hok2 & Hlast2).
      rewrite (Hall1 eq_refl), app_nil_r in Hsel1.
      symmetry in Hok1. apply negb_true_iff in Hok1.
      split; [|split; [|split]].
      * exists rest2. split; [|exact Hall2].
        rewrite Hsel1, Hsel2, map_app, app_assoc. reflexivity.
      * rewrite map_app, existsb_app, Hok1. exact Hok2.
      * destruct log2 as [|so2 log2].
        -- rewrite app_nil_r. exact Hlast1.
        -- rewrite removelast_app by discriminate.
           rewrite map_app, existsb_app, Hok1. exact Hlast2.
      * apply Forall_app. split; assumption.
    + split; [|split; [|split]].
      * exists (rest1 ++ selected targets [StepSystem; StepCache; StepData])%list.
        split; [|discriminate]. rewrite Hsel1, app_assoc. reflexivity.
      * exact Hok1.
      * exact Hlast1.
      * exact F1.
  - cbn. split; [|split; [|split]]; try reflexivity; [|constructor].
    eexists. split; [reflexivity | discriminate].
Qed.

(** C2, as stated, fails for restore: with every step able to succeed, the
    restore still returns failure, before any step has run, when the
    directory of the ROM cannot be created. *)
Lemma restore_fails_before_any_step :
  let env := sample_env [] ["mkdir_recursive"] 4096 in
  let banner := selection_log "Restoring:" sample_rom "/backups/b1"
                  BACKUP_TARGET_ALL in
  let run := restore_rom sample_constants env sample_rom "/backups/b1"
               BACKUP_TARGET_ALL [] in
  let stated := restore_as_stated sample_constants env sample_rom "/backups/b1"
                  BACKUP_TARGET_ALL banner in
  fst run = false
  /\ snd run =
       (banner ++
        [EvMkdirRecursive "/data/media/0/MultiBoot/dual" 509 MkdirError;
         EvLog LOGE "%s: Failed to create directory: %s"
           ["/data/media/0/MultiBoot/dual"]])%list
  /\ fst (fst stated) = true
  /\ snd (fst stated) =
       [(StepBoot, Ran SUCCEEDED); (StepConfig, Ran SUCCEEDED);
        (StepSystem, Ran SUCCEEDED); (StepCache, Ran SUCCEEDED);
        (StepData, Ran SUCCEEDED)].
Proof. cbv zeta. repeat split. Qed.

(** C2, amended.  With a non-empty target set, [backup_rom] announces the
    targets and then runs the selected steps in the order boot, config,
    system, cache, data: the steps gone through are an initial segment of the
    selected ones, an outcome of failure is the last one, and the backup
    succeeds exactly when no step failed (all selected steps have then run).
    [restore_rom] does the same after creating the directory of the ROM,
    with two more ways to fail: the directory cannot be created (no step
    runs), or the system step is refused because the size of the system
    partition is zero; it succeeds exactly when the directory was created
    and no step failed or was refused. *)
Theorem rom_steps_in_order (K : Constants) (env : Env) (rom : Rom)
    (dir : string) (targets : Z) (h : list Event) :
  targets <> 0 ->
  let banner_b := selection_log "Backing up:" rom dir targets in
  let banner_r := selection_log "Restoring:" rom dir targets in
  let b := backup_coordinator env rom dir targets (h ++ banner_b)%list in
  let r := restore_coordinator K env rom dir targets (h ++ banner_r)%list in
  let made := env_mkdir_recursive env (h ++ banner_r)%list
                (MULTIBOOT_DIR K ++ "/" ++ id rom) mode_0775 in
  (backup_rom env rom dir targets h = (fst (fst b), (banner_b ++ snd b)%list)
   /\ (exists rest,
          selected targets step_order = (map fst (snd (fst b)) ++ rest)%list
          /\ (fst (fst b) = true -> rest = []))
   /\ fst (fst b) = negb (existsb aborting (map snd (snd (fst b))))
   /\ existsb aborting (map snd (removelast (snd (fst b)))) = false
   /\ Forall (fun so => snd so <> Refused) (snd (fst b)))
  /\
  (restore_rom K env rom dir targets h = (fst (fst r), (banner_r ++ snd r)%list)
   /\ (exists rest,
          selected targets step_order = (map fst (snd (fst r)) ++ rest)%list
          /\ (fst (fst r) = true -> rest = []))
   /\ fst (fst r) = mkdir_ok made
                    && negb (existsb aborting (map snd (snd (fst r))))
   /\ existsb aborting (map snd (removelast (snd (fst r)))) = false
   /\ Forall (fun so => snd so = Refused -> fst so = StepSystem) (snd (fst r))).
Proof.
  intros Hnz. cbv zeta. split.
  - split.
    + rewrite backup_rom_refines by exact Hnz. cbv zeta.
      destruct (backup_coordinator _ _ _ _ _) as [p e]. reflexivity.
    + unfold backup_coordinator.
      pose proof (run_steps_log (backup_step env rom dir)
                    (selected targets step_order)
                    (h ++ selection_log "Backing up:" rom dir targets)%list) as H.
      cbv zeta in H. destruct H as (Hsel & Hok & Hlast).
      split; [exact Hsel|]. split; [exact Hok|]. split; [exact Hlast|].
      apply (run_steps_outcomes (fun _ o => o <> Refused)).
      intros s h'. apply backup_step_ran.
  - split.
    + rewrite restore_rom_refines by exact Hnz. cbv zeta.
      destruct (restore_coordinator _ _ _ _ _ _) as [p e]. reflexivity.
    + apply restore_coordinator_log.
Qed.

(** A backup of all targets in a world where the thumbnail is missing: the
    config step reports missing files and the backup succeeds. *)
Lemma rom_steps_in_order_witness :
  let env := sample_env ["/data/media/0/MultiBoot/dual/thumbnail.webp"] [] 4096 in
  let banner := selection_log "Backing up:" sample_rom "/backups/b1"
                  BACKUP_TARGET_ALL in
  let b := backup_coordinator env sample_rom "/backups/b1" BACKUP_TARGET_ALL
             banner in
  BACKUP_TARGET_ALL <> 0
  /\ backup_rom env sample_rom "/backups/b1" BACKUP_TARGET_ALL [] =
       (true, (banner ++ snd b)%list)
  /\ snd (fst b) =
       [(StepBoot, Ran SUCCEEDED); (StepConfig, Ran FILES_MISSING);
        (StepSystem, Ran SUCCEEDED); (StepCache, Ran SUCCEEDED);
        (StepData, Ran SUCCEEDED)].
Proof.
  cbv zeta.
  assert (Hnz : BACKUP_TARGET_ALL <> 0) by discriminate.
  split; [exact Hnz|]. split; [|reflexivity].
  exact (proj1 (proj1 (rom_steps_in_order sample_constants
                         (sample_env ["/data/media/0/MultiBoot/dual/thumbnail.webp"]
                            [] 4096)
                         sample_rom "/backups/b1" BACKUP_TARGET_ALL [] Hnz))).
Defined.

(** ** The size of the system partition *)



Lemma selection_log_is_log (title : string) (rom : Rom) (dir : string)
    (targets : Z) :
  Forall is_log (selection_log title rom dir targets).
Proof.
  unfold selection_log.
  repeat (apply Forall_app; split);
    repeat match goal with
           | |- Forall _ (if ?c then _ else _) => destruct c
           end;
    repeat constructor.
Qed.



Section SystemSize.

Variable K : Constants.
Variable env : Env.
Variable rom : Rom.
Variable dir : string.
Variable targets : Z.





End SystemSize.



(** ** Directory passes and partition steps *)

Lemma kept_names_spec (exclusions names : list string) (n : string) :
  In n (filter (fun d_name =>
                  negb ((d_name =? ".")%string
                        || (d_name =? "..")%string
                        || existsb (String.eqb d_name) exclusions))
               names)
  <-> In n names /\ n <> "." /\ n <> ".." /\ ~ In n exclusions.
Proof.
  rewrite filter_In, negb_true_iff, !orb_false_iff, !String.eqb_neq.
  assert (Hex : existsb (String.eqb n) exclusions = false <-> ~ In n exclusions).
  { split.
    - intros Hf Hin.
      assert (Ht : existsb (String.eqb n) exclusions = true).
      { apply existsb_exists. exists n. split; [exact Hin | apply String.eqb_refl]. }
      congruence.
    - intros Hn. destruct (existsb (String.eqb n) exclusions) eqn:He; [|reflexivity].
      apply existsb_exists in He. destruct He as (x & Hx & Heq).
      apply String.eqb_eq in Heq. subst. contradiction. }
  rewrite Hex. tauto.
Qed.

(** X1: [backup_directory] writes at most one archive, and only when the
    directory could be opened and read without error; the archive holds
    exactly the names read that are not [.], [..] or excluded; and the pass
    succeeds exactly when the archive was written successfully. *)
Theorem backup_directory_archive (env : Env) (output_file directory : string)
    (exclusions : list string) (h : list Event) :
  let run := backup_directory env output_file directory exclusions h in
  fst run = existsb archive_pass_succeeded (snd run)
  /\ existsb is_archive (snd run) = negb (existsb read_failed (snd run))
  /\ (List.length (filter is_archive (snd run)) <= 1)%nat
  /\ Forall (archives_what_was_read output_file directory exclusions (snd run))
       (snd run).
Proof.
  cbv zeta.
  cases_of_run (backup_directory env output_file directory exclusions h).
  unfold backup_directory. run_proc; this_run; case_rest;
    (split; [reflexivity|]; split; [reflexivity|]; split; [cbn; lia|]);
    each_event ltac:(first
      [ exact I
      | split; [reflexivity|]; split; [reflexivity|];
        eexists; split; [cbn; auto 6|]; split; [cbn; auto 6|];
        intro n; apply (kept_names_spec exclusions) ]).
Qed.

(** X2: a partition restore extracts at most once, the whole of the archive
    of the bundle, and only right after it has successfully wiped, with the
    exclusions it was given, the directory it extracts into; when the wipe
    fails nothing is extracted. *)
Theorem restore_extracts_after_wipe (env : Env)
    (path backup_dir archive_name : string) (is_image : bool) (image_size : Z)
    (exclusions : list string) (h : list Event) :
  let run := restore_partition env path backup_dir archive_name is_image
               image_size exclusions h in
  let archive := backup_dir ++ "/" ++ archive_name in
  Forall (extract_after_wipe archive exclusions) (consecutive (snd run))
  /\ first_event (snd run) = Some (EvStat archive (env_stat env h archive))
  /\ (List.length (filter is_extract (snd run)) <= 1)%nat.
Proof.
  cbv zeta.
  cases_of_run (restore_partition env path backup_dir archive_name is_image
                  image_size exclusions h).
  unfold restore_partition, restore_image, restore_directory.
  run_proc; this_run;
    (split; [|split; [congruence || (f_equal; f_equal; congruence) | cbn; lia]]);
    each_event ltac:(first [ exact I
                           | split; [reflexivity | split; reflexivity] ]).
Qed.

(** X3: a partition step in directory mode works on the live path itself and
    uses none of the image machinery (no mount, unmount, check or creation
    of an image, no mount point); in image mode every directory it reads,
    archives, wipes or extracts into is the shared mount point, and the only
    image it checks, mounts or creates is the one at the live path. *)
Theorem partition_mode_dispatch (env : Env)
    (path backup_dir archive_name : string) (is_image : bool) (image_size : Z)
    (exclusions : list string) (h : list Event) :
  let b := snd (backup_partition env path backup_dir archive_name is_image
                  exclusions h) in
  let r := snd (restore_partition env path backup_dir archive_name is_image
                  image_size exclusions h) in
  let worked_on := if is_image then BACKUP_MNT_DIR else path in
  (Forall (touches_only worked_on) b
   /\ Forall (image_calls_on path image_size) b
   /\ (is_image = false -> existsb image_machinery b = false))
  /\
  (Forall (touches_only worked_on) r
   /\ Forall (image_calls_on path image_size) r
   /\ (is_image = false -> existsb image_machinery r = false)).
Proof.
  cbv zeta. split; (split; [|split]).
  - revert h.
    change (emits (touches_only (if is_image then BACKUP_MNT_DIR else path))
              (backup_partition env path backup_dir archive_name is_image
                 exclusions)).
    unfold backup_partition. destruct is_image;
      emits_auto ltac:(first [exact I | exact eq_refl]).
  - revert h.
    change (emits (image_calls_on path image_size)
              (backup_partition env path backup_dir archive_name is_image
                 exclusions)).
    emits_auto ltac:(first [exact I | exact eq_refl | exact (conj eq_refl eq_refl)]).
  - intros ->.
    cases_of_run (backup_partition env path backup_dir archive_name false
                    exclusions h).
    unfold backup_partition, backup_directory. run_proc; this_run; reflexivity.
  - revert h.
    change (emits (touches_only (if is_image then BACKUP_MNT_DIR else path))
              (restore_partition env path backup_dir archive_name is_image
                 image_size exclusions)).
    unfold restore_partition. destruct is_image;
      emits_auto ltac:(first [exact I | exact eq_refl]).
  - revert h.
    change (emits (image_calls_on path image_size)
              (restore_partition env path backup_dir archive_name is_image
                 image_size exclusions)).
    emits_auto ltac:(first [exact I | exact eq_refl | exact (conj eq_refl eq_refl)]).
  - intros ->.
    cases_of_run (restore_partition env path backup_dir archive_name false
                    image_size exclusions h).
    unfold restore_partition, restore_directory. run_proc; this_run; reflexivity.
Qed.

(** X4: the result of a partition step, in full: it reports missing files
    exactly when [stat] does not find its input (the live path for a backup,
    the archive for a restore); otherwise it succeeds exactly when the
    archive pass succeeded and, in image mode, the unmount succeeded, and
    fails in every other case. *)
Theorem partition_step_result (env : Env)
    (path backup_dir archive_name : string) (is_image : bool) (image_size : Z)
    (exclusions : list string) (h : list Event) :
  let b := backup_partition env path backup_dir archive_name is_image
             exclusions h in
  let r := restore_partition env path backup_dir archive_name is_image
             image_size exclusions h in
  let archive := backup_dir ++ "/" ++ archive_name in
  let passed evs :=
    existsb archive_pass_succeeded evs
    && (negb is_image || existsb unmount_succeeded evs) in
  fst b = (if negb (stat_ok (env_stat env h path)) then FILES_MISSING
           else if passed (snd b) then SUCCEEDED else FAILED)
  /\ fst r = (if negb (stat_ok (env_stat env h archive)) then FILES_MISSING
              else if passed (snd r) then SUCCEEDED else FAILED).
Proof.
  cbv zeta. split.
  - cases_of_run (backup_partition env path backup_dir archive_name is_image
                    exclusions h).
    unfold backup_partition, backup_image, backup_directory.
    run_proc; this_run; case_rest; reflexivity || congruence.
  - cases_of_run (restore_partition env path backup_dir archive_name is_image
                    image_size exclusions h).
    unfold restore_partition, restore_image, restore_directory.
    run_proc; this_run; case_rest; reflexivity || congruence.
Qed.

(** ** Image passes: preparing the image and the mount point *)

(** X5: [restore_image] creates the image exactly when [stat] reports that it
    does not exist (an existing image is used as it is), at most once; when
    the parent directory cannot be made, [stat] fails otherwise, or the
    creation fails, it returns [false] and nothing is checked, mounted,
    wiped or extracted. *)
Theorem restore_image_creation (env : Env) (input_file image : string)
    (size : Z) (exclusions : list string) (h : list Event) :
  let run := restore_image env input_file image size exclusions h in
  let evs := snd run in
  existsb is_create_image evs = existsb stat_not_found evs
  /\ (List.length (filter is_create_image evs) <= 1)%nat
  /\ (existsb parent_failed evs || existsb stat_error evs
      || existsb create_failed evs = true ->
      fst run = false
      /\ existsb is_fsck evs = false
      /\ existsb is_mount evs = false
      /\ existsb is_wipe_or_extract evs = false).
Proof.
  cbv zeta.
  cases_of_run (restore_image env input_file image size exclusions h).
  unfold restore_image, restore_directory. run_proc; this_run;
    (split; [reflexivity|]; split; [cbn; lia|]);
    intros Hb; try discriminate Hb; repeat split.
Qed.

Lemma restore_image_creation_witness :
  let run := restore_image (sample_env ["/raw/images/cache.img"]
                              ["create_ext4_image"] 0)
               "/backups/b1/cache.tar" "/raw/images/cache.img" 4096 [] [] in
  fst run = false /\ existsb is_mount (snd run) = false.
Proof.
  cbv zeta.
  pose proof (restore_image_creation
                (sample_env ["/raw/images/cache.img"] ["create_ext4_image"] 0)
                "/backups/b1/cache.tar" "/raw/images/cache.img" 4096 [] []) as H.
  cbv zeta in H. destruct H as (_ & _ & H).
  destruct (H eq_refl) as (Hr & _ & Hm & _). split; assumption.
Defined.

(** X6: in both image passes the mount comes right after the file system
    check of the image, at the shared mount point, as ext4, read-only for a
    backup and read-write for a restore, and there is at most one mount.  A
    mount point that already exists is accepted (the mount is attempted); any
    other failure to make it ends the pass with [false] before the image is
    checked or mounted. *)
Theorem image_mount_preparation (env : Env) (archive image : string)
    (size : Z) (exclusions : list string) (h : list Event) :
  let b := backup_image env archive image exclusions h in
  let r := restore_image env archive image size exclusions h in
  (Forall (mount_after_fsck image MS_RDONLY) (consecutive (snd b))
   /\ (List.length (filter is_mount (snd b)) <= 1)%nat
   /\ (existsb mount_point_exists (snd b) = true ->
       existsb is_mount (snd b) = true)
   /\ (existsb mount_point_error (snd b) = true ->
       fst b = false /\ existsb is_fsck (snd b) = false
       /\ existsb is_mount (snd b) = false))
  /\
  (Forall (mount_after_fsck image 0) (consecutive (snd r))
   /\ (List.length (filter is_mount (snd r)) <= 1)%nat
   /\ (existsb mount_point_exists (snd r) = true ->
       existsb is_mount (snd r) = true)
   /\ (existsb mount_point_error (snd r) = true ->
       fst r = false /\ existsb is_fsck (snd r) = false
       /\ existsb is_mount (snd r) = false)).
Proof.
  cbv zeta. split.
  - cases_of_run (backup_image env archive image exclusions h).
    unfold backup_image, backup_directory. run_proc; this_run;
      (split;
       [ each_event ltac:(first [exact I | repeat split])
       | split; [cbn; lia|]; split;
         intros Hb; try discriminate Hb; repeat split ]).
  - cases_of_run (restore_image env archive image size exclusions h).
    unfold restore_image, restore_directory. run_proc; this_run;
      (split;
       [ each_event ltac:(first [exact I | repeat split])
       | split; [cbn; lia|]; split;
         intros Hb; try discriminate Hb; repeat split ]).
Qed.

Lemma image_mount_preparation_witness :
  let b := backup_image (with_mkdir_recursive MkdirEEXIST (sample_env [] [] 4096))
             "/backups/b1/system.tar" "/raw/images/system.img" ["multiboot"] [] in
  existsb is_mount (snd b) = true /\ fst b = true.
Proof.
  cbv zeta. split; [|reflexivity].
  refine (proj1 (proj2 (proj2 (proj1 (image_mount_preparation _ _ _ 0 _ _)))) _).
  reflexivity.
Defined.

(** ** Boot image steps *)

(** X7: the boot-image backup reports missing files exactly when the live
    boot image is not found, fails exactly when the copy fails and succeeds
    otherwise; it does nothing but look at the live boot image, log, and
    copy it, at most once, to [boot.img] in the bundle. *)
Theorem backup_boot_image_result (env : Env) (rom : Rom) (backup_dir : string)
    (h : list Event) :
  let run := backup_boot_image env rom backup_dir h in
  fst run = (if negb (stat_ok (env_stat env h (boot_image_path rom)))
             then FILES_MISSING
             else if existsb copy_failed (snd run) then FAILED else SUCCEEDED)
  /\ Forall (boot_backup_event rom backup_dir) (snd run)
  /\ List.length (copies (snd run)) =
       (if stat_ok (env_stat env h (boot_image_path rom)) then 1 else 0)%nat.
Proof.
  cbv zeta.
  cases_of_run (backup_boot_image env rom backup_dir h).
  unfold backup_boot_image. run_proc; this_run;
    (split; [reflexivity || congruence|]; split; [|reflexivity || congruence]);
    each_event ltac:(first [exact I | reflexivity | repeat split]).
Qed.

(** X8: the boot-image restore reports missing files exactly when the bundle
    has no [boot.img], and then it has done nothing but the [stat] and a
    warning; it fails exactly when it logs an error, so every failure is
    reported; it tries to write a boot image at most once, as the last thing
    it does or followed by the error line only. *)
Theorem restore_boot_image_result (K : Constants) (env : Env) (rom : Rom)
    (backup_dir : string) (h : list Event) :
  let run := restore_boot_image K env rom backup_dir h in
  let saved := backup_dir ++ "/" ++ BACKUP_NAME_BOOT_IMAGE in
  Result_eqb (fst run) FILES_MISSING = negb (stat_ok (env_stat env h saved))
  /\ (fst run = FILES_MISSING ->
      snd run = [EvStat saved (env_stat env h saved);
                 EvLog LOGW "=== %s does not exist ===" [saved]])
  /\ Result_eqb (fst run) FAILED = existsb is_error_log (snd run)
  /\ (List.length (filter is_boot_image_write (snd run)) <= 1)%nat
  /\ existsb is_boot_image_write (removelast (removelast (snd run))) = false.
Proof.
  cbv zeta.
  cases_of_run (restore_boot_image K env rom backup_dir h).
  unfold restore_boot_image. run_proc; this_run;
    (split; [reflexivity || congruence|];
     split; [intros Hr; try discriminate Hr; congruence|];
     split; [reflexivity|]; split; [cbn; lia | reflexivity]).
Qed.

(** X9: a boot image that the restore writes goes to the boot image path of
    the ROM and is the image loaded from the bundle with its ramdisk
    replaced by the loaded ramdisk archive with the ROM id set; for an image
    loaded as Loki the aboot partition is read and becomes the aboot image,
    and the target type becomes Loki; for any other image the aboot
    partition is never read, and aboot image and target type stay. *)
Theorem restore_boot_image_written (K : Constants) (env : Env) (rom : Rom)
    (backup_dir : string) (h : list Event) :
  let evs := snd (restore_boot_image K env rom backup_dir h) in
  Forall (written_from_bundle K env rom backup_dir evs) evs.
Proof.
  cbv zeta.
  cases_of_run (restore_boot_image K env rom backup_dir h).
  unfold restore_boot_image. run_proc; this_run;
    each_event ltac:(cbn; first
      [ exact I
      | split; [reflexivity|];
        eexists; split; [cbn; auto 8 | eassumption]
      | split; [reflexivity|];
        eexists _, _; split; [cbn; auto 8|];
        split; [eassumption|]; split; [eassumption|];
        split; [reflexivity|]; split; [reflexivity|];
        match goal with
        | H : wasType _ = _ |- _ => rewrite H; cbn; repeat split; cbn; auto 10
        end ]).
Qed.

Lemma restore_boot_image_written_witness :
  let env := with_boot_image sample_loki_image (sample_env [] [] 4096) in
  let evs := snd (restore_boot_image sample_constants env sample_rom
                    "/backups/b1" []) in
  Forall (written_from_bundle sample_constants env sample_rom "/backups/b1" evs)
    evs
  /\ filter is_boot_image_write evs =
       [EvBootImageCreateFile "/data/media/0/MultiBoot/dual/boot.img"
          (mkBootImage
             (List.concat (map entry_data (set_romid "dual" sample_cpio)))
             (list_byte_of_string "aboot") TypeLoki TypeLoki
             (list_byte_of_string "kernel"))
          true].
Proof.
  cbv zeta. split; [|reflexivity].
  exact (restore_boot_image_written sample_constants
           (with_boot_image sample_loki_image (sample_env [] [] 4096))
           sample_rom "/backups/b1" []).
Defined.

(** ** What a backup and a restore may touch *)

Lemma backup_rom_emits (env : Env) (rom : Rom) (output_dir : string)
    (targets : Z) :
  emits (backup_rom_event rom output_dir)
    (backup_rom env rom output_dir targets).
Proof.
  emits_auto ltac:(first [exact I | exact eq_refl | cbn; auto 10]).
Qed.

Lemma restore_rom_emits (K : Constants) (env : Env) (rom : Rom)
    (input_dir : string) (targets : Z) :
  emits (restore_rom_event K rom input_dir)
    (restore_rom K env rom input_dir targets).
Proof.
  emits_auto ltac:(first [exact I | exact eq_refl | cbn; auto 10]).
Qed.

(** X10: a ROM backup writes into the bundle only: its copies and archives
    go to the six fixed names in the backup directory, images are mounted
    read-only at the shared mount point, and it never wipes, extracts,
    creates an image or writes a boot image. *)
Theorem backup_rom_writes_bundle_only (env : Env) (rom : Rom)
    (output_dir : string) (targets : Z) (h : list Event) :
  Forall (backup_rom_event rom output_dir)
    (snd (backup_rom env rom output_dir targets h)).
Proof. exact (backup_rom_emits env rom output_dir targets h). Qed.

(** X11: a ROM restore only reads from the bundle: it copies the two
    configuration files out of it, extracts the three archives whole, and
    loads the boot image; what it writes are the files, directories and
    images of the ROM; it never writes an archive. *)
Theorem restore_rom_reads_bundle_only (K : Constants) (env : Env) (rom : Rom)
    (input_dir : string) (targets : Z) (h : list Event) :
  Forall (restore_rom_event K rom input_dir)
    (snd (restore_rom K env rom input_dir targets h)).
Proof. exact (restore_rom_emits K env rom input_dir targets h). Qed.

Lemma bundle_names_differ (dir a b : string) :
  a <> b -> dir ++ "/" ++ a <> dir ++ "/" ++ b.
Proof.
  intros Hne H. apply Hne.
  induction dir as [|x dir IH]; cbn in H.
  - now injection H.
  - apply IH. now injection H.
Qed.

Ltac other_artifact :=
  cbn [writes_artifact reads_artifact artifact_paths step_artifacts map In];
  repeat match goal with
         | |- ~ _ => intro
         | H : _ \/ _ |- _ => destruct H
         | H : False |- _ => destruct H
         | H : (_ ++ "/" ++ _)%string = _ |- _ =>
             apply bundle_names_differ in H;
             [destruct H | let X := fresh in intro X; cbv in X; discriminate X]
         end.

(** X12: the target bits gate the work.  When the bit of a step is clear, a
    backup writes none of that step's files in the bundle, and a restore
    reads none of them. *)
Theorem unselected_step_untouched (K : Constants) (env : Env) (rom : Rom)
    (dir : string) (targets : Z) (s : Step) (h : list Event)
    (Hclear : has_target targets (step_target s) = false) :
  Forall (fun e => ~ writes_artifact dir s e)
    (snd (backup_rom env rom dir targets h))
  /\ Forall (fun e => ~ reads_artifact dir s e)
       (snd (restore_rom K env rom dir targets h)).
Proof.
  split; revert h.
  - change (emits (fun e => ~ writes_artifact dir s e)
              (backup_rom env rom dir targets)).
    unfold backup_rom, when.
    destruct s; cbn [step_target] in Hclear; rewrite !Hclear;
      emits_auto ltac:(first [exact (fun x : False => x) | other_artifact]).
  - change (emits (fun e => ~ reads_artifact dir s e)
              (restore_rom K env rom dir targets)).
    unfold restore_rom, when.
    destruct s; cbn [step_target] in Hclear; rewrite !Hclear;
      emits_auto ltac:(first [exact (fun x : False => x) | other_artifact]).
Qed.

Lemma unselected_step_untouched_witness :
  has_target BACKUP_TARGET_SYSTEM (step_target StepBoot) = false
  /\ Forall (fun e => ~ writes_artifact "/b" StepBoot e)
       (snd (backup_rom (sample_env [] [] 4096) sample_rom "/b"
               BACKUP_TARGET_SYSTEM []))
  /\ Forall (fun e => ~ reads_artifact "/b" StepBoot e)
       (snd (restore_rom sample_constants (sample_env [] [] 4096) sample_rom
               "/b" BACKUP_TARGET_SYSTEM [])).
Proof.
  split; [reflexivity|].
  apply (unselected_step_untouched sample_constants (sample_env [] [] 4096)
           sample_rom "/b" BACKUP_TARGET_SYSTEM StepBoot []).
  reflexivity.
Defined.

(** X13: a target set that selects no step.  The empty set is refused with
    one error line and nothing else.  A non-empty set without any known bit
    makes the backup announce itself and succeed without further work; the
    restore still makes the ROM directory, fails if that fails, and
    otherwise fixes the permissions and succeeds. *)
Theorem no_step_selected (K : Constants) (env : Env) (rom : Rom)
    (dir : string) (targets : Z) (h : list Event)
    (Hnone : selects_no_step targets) :
  let made h' :=
    env_mkdir_recursive env h' (MULTIBOOT_DIR K ++ "/" ++ id rom) mode_0775 in
  backup_rom env rom dir targets h
  = (if targets =? 0
     then (false, [EvLog LOGE "No backup targets specified" []])
     else (true, selection_log "Backing up:" rom dir targets))
  /\ restore_rom K env rom dir targets h
     = (if targets =? 0
        then (false, [EvLog LOGE "No restore targets specified" []])
        else
          let banner := selection_log "Restoring:" rom dir targets in
          let multiboot_dir := MULTIBOOT_DIR K ++ "/" ++ id rom in
          let r := made (h ++ banner)%list in
          (mkdir_ok r,
           (banner
            ++ EvMkdirRecursive multiboot_dir mode_0775 r
            :: (if mkdir_ok r then [EvFixMultibootPermissions]
                else [EvLog LOGE "%s: Failed to create directory: %s"
                        [multiboot_dir]]))%list)).
Proof.
  pose proof (Hnone StepBoot) as Hb. pose proof (Hnone StepConfig) as Hc.
  pose proof (Hnone StepSystem) as Hs. pose proof (Hnone StepCache) as Hh.
  pose proof (Hnone StepData) as Hd. cbn [step_target] in *.
  unfold backup_rom, restore_rom, selection_log, when.
  rewrite !Hb, !Hc, !Hs, !Hh, !Hd.
  destruct (targets =? 0); [split; reflexivity|].
  split; [reflexivity|].
  unfold_calls. cbn. rewrite <- !app_assoc. cbn.
  destruct (mkdir_ok _); reflexivity.
Qed.

Lemma no_step_selected_witness :
  selects_no_step 32
  /\ backup_rom (sample_env [] [] 4096) sample_rom "/b" 32 []
     = (true, selection_log "Backing up:" sample_rom "/b" 32)
  /\ fst (restore_rom sample_constants (sample_env [] [] 4096) sample_rom
            "/b" 32 []) = true.
Proof.
  assert (Hnone : selects_no_step 32) by (intros []; reflexivity).
  split; [exact Hnone|].
  pose proof (no_step_selected sample_constants (sample_env [] [] 4096)
                sample_rom "/b" 32 [] Hnone) as [Hb Hr].
  split; [exact Hb|]. rewrite Hr. reflexivity.
Defined.

(** ** Parsed target sets *)

Lemma lor_within_all (a b : Z) :
  0 <= a <= BACKUP_TARGET_ALL -> 0 <= b <= BACKUP_TARGET_ALL ->
  0 <= Z.lor a b <= BACKUP_TARGET_ALL.
Proof.
  change BACKUP_TARGET_ALL with 31. intros Ha Hb.
  assert (Hlog : forall x, 0 <= x <= 31 -> Z.log2 x < 5).
  { intros x Hx. destruct (Z.eq_dec x 0) as [->|Hnz]; [reflexivity|].
    apply Z.log2_lt_pow2; lia. }
  assert (Hnn : 0 <= Z.lor a b) by (apply Z.lor_nonneg; lia).
  split; [exact Hnn|].
  destruct (Z.eq_dec (Z.lor a b) 0) as [->|Hnz]; [lia|].
  assert (Z.lor a b < 2 ^ 5); [|lia].
  apply Z.log2_lt_pow2; [lia|].
  rewrite Z.log2_lor by lia.
  pose proof (Hlog a Ha). pose proof (Hlog b Hb). lia.
Qed.

Lemma target_bits_within_all (target : string) (bits : Z) :
  target_bits target = Some bits -> 0 < bits <= BACKUP_TARGET_ALL.
Proof.
  unfold target_bits.
  repeat match goal with
         | |- context [if ?c then _ else _] => destruct c
         end;
    intros H; inversion H; subst; vm_compute; split; congruence.
Qed.

Lemma parse_targets_list_within_all (l : list string) (result : Z) :
  0 <= result <= BACKUP_TARGET_ALL ->
  0 <= parse_targets_list l result <= BACKUP_TARGET_ALL.
Proof.
  revert result; induction l as [|t l IH]; intros result Hr; [exact Hr|].
  rewrite parse_targets_list_cons.
  destruct (target_bits t) as [bits|] eqn:Ht; [|vm_compute; split; congruence].
  apply IH. apply lor_within_all; [exact Hr|].
  apply target_bits_within_all in Ht. lia.
Qed.

Lemma parse_targets_list_grows (l : list string) (result : Z) :
  forallb known_target l = true -> 0 <= result ->
  result <> 0 -> parse_targets_list l result <> 0.
Proof.
  revert result; induction l as [|t l IH]; intros result Hk Hr Hnz;
    [exact Hnz|].
  rewrite parse_targets_list_cons. cbn [forallb] in Hk.
  apply andb_true_iff in Hk. destruct Hk as [Ht Hk].
  unfold known_target in Ht.
  destruct (target_bits t) as [bits|] eqn:Hb; [|discriminate].
  apply target_bits_within_all in Hb.
  apply IH; [exact Hk | apply Z.lor_nonneg; lia|].
  intros H0. apply Z.lor_eq_0_iff in H0. lia.
Qed.

Lemma split_on_nonempty (delim : ascii) (s : string) : split_on delim s <> [].
Proof.
  destruct s as [|c rest]; cbn [split_on]; [discriminate|].
  destruct (Ascii.eqb c delim); [discriminate|].
  destruct (split_on delim rest); discriminate.
Qed.

Lemma selects_a_step (n : nat) :
  (0 < n <= 31)%nat ->
  existsb (fun s => has_target (Z.of_nat n) (step_target s)) step_order = true.
Proof.
  intros Hn.
  do 32 (destruct n as [|n]; [first [lia | reflexivity]|]). lia.
Qed.

(** X14: what the parser returns.  The result lies between 0 and the full
    set; it is not 0 exactly when there is a token and every token is a
    target name; a result that is not 0 selects at least one step of the
    coordinator. *)
Theorem parsed_targets (tokens : list string) (targets : string) :
  let t := parse_targets_list tokens 0 in
  0 <= t <= BACKUP_TARGET_ALL
  /\ (t <> 0 <-> tokens <> [] /\ forallb known_target tokens = true)
  /\ (t <> 0 -> exists s, has_target t (step_target s) = true)
  /\ (parse_targets_string targets <> 0
      <-> forallb known_target (split targets ",") = true).
Proof.
  assert (Hrange : forall l, 0 <= parse_targets_list l 0 <= BACKUP_TARGET_ALL).
  { intros l. apply parse_targets_list_within_all. vm_compute.
    split; congruence. }
  assert (Hnz : forall l, parse_targets_list l 0 <> 0
                          <-> l <> [] /\ forallb known_target l = true).
  { intros l. split.
    - intros H. split; [intros ->; now apply H|].
      destruct (forallb known_target l) eqn:Hk; [reflexivity|].
      now rewrite parse_targets_list_unknown in H.
    - intros [Hne Hk]. destruct l as [|t l]; [congruence|].
      rewrite parse_targets_list_cons. cbn [forallb] in Hk.
      apply andb_true_iff in Hk. destruct Hk as [Ht Hk].
      unfold known_target in Ht.
      destruct (target_bits t) as [bits|] eqn:Hb; [|discriminate].
      apply target_bits_within_all in Hb.
      apply parse_targets_list_grows; [exact Hk | | ].
      + apply Z.lor_nonneg; lia.
      + intros H0. apply Z.lor_eq_0_iff in H0. lia. }
  cbv zeta. split; [apply Hrange|]. split; [apply Hnz|]. split.
  - intros H. pose proof (Hrange tokens) as [Hlo Hhi].
    change BACKUP_TARGET_ALL with 31 in Hhi.
    pose proof (selects_a_step (Z.to_nat (parse_targets_list tokens 0))) as Hs.
    rewrite Z2Nat.id in Hs by exact Hlo.
    apply existsb_exists in Hs; [|lia].
    destruct Hs as (s & _ & Hs). now exists s.
  - unfold parse_targets_string. rewrite Hnz.
    split; [tauto|]. intros Hk. split; [|exact Hk].
    apply split_on_nonempty.
Qed.

(** ** Image sizes *)

Section ImageSizes.

Variable K : Constants.
Variable env : Env.
Variable rom : Rom.
Variable dir : string.
Variable targets : Z.







End ImageSizes.



(** ** The command line *)

Lemma empty_false (s : string) : empty s = false -> s <> "".
Proof. destruct s; [discriminate|]. intros _ H. discriminate. Qed.

Ltac cmd_unfold :=
  unfold ensure_partitions_mounted, empty_or_not_mounted, backup_usage,
    restore_usage, fprintf, format_time, get_cache_partition,
    get_data_partition, is_mounted, find_installed, create_rom, engine,
    cmd_bind, cmd_ret, get_system_partition, stat, mkdir_recursive, log.

(** X15: [ensure_partitions_mounted] fetches the three partition names and
    then checks system, cache and data in this order, stopping at the first
    that has no name or is not mounted with one line on stderr; the mount
    table is never asked about a partition without a name. *)
Theorem ensure_partitions_mounted_result (cenv : CmdEnv) (h : list CmdEvent) :
  let run := ensure_partitions_mounted cenv h in
  exists s c d tail,
    snd run = (CmdEngine (EvGetSystemPartition s) :: CmdGetCachePartition c
               :: CmdGetDataPartition d :: tail)
    /\ ((fst run = true /\ s <> "" /\ c <> "" /\ d <> ""
         /\ tail = [CmdIsMounted s true; CmdIsMounted c true;
                    CmdIsMounted d true])
        \/ (fst run = false /\ tail = refusal s "System")
        \/ (fst run = false /\ s <> ""
            /\ tail = CmdIsMounted s true :: refusal c "Cache")
        \/ (fst run = false /\ s <> "" /\ c <> ""
            /\ tail = CmdIsMounted s true :: CmdIsMounted c true
                      :: refusal d "Data")).
Proof.
  cbv zeta. cmd_unfold. cbn.
  do 3 eexists.
  repeat match goal with
         | |- context [empty ?p] =>
             let E := fresh "E" in
             destruct (empty p) eqn:E;
             [|pose proof (empty_false _ E)]; cbn
         | |- context [cmd_is_mounted ?e ?hh ?p] =>
             destruct (cmd_is_mounted e hh p); cbn
         end;
    eexists; (split; [reflexivity|]); unfold refusal;
    repeat match goal with H : empty _ = _ |- _ => rewrite H; clear H end;
    cbn; tauto.
Qed.

(** *** Running the commands *)

Ltac cases_of_cmd t :=
  match goal with
  | |- ?G =>
      let P := eval pattern t in G in
      match P with
      | ?F _ => refine (run_cases F t _)
      end
  end;
  cbv beta; intro.

Ltac cmd_calls :=
  unfold backup_usage, restore_usage, fprintf, format_time,
    get_cache_partition, get_data_partition, is_mounted, find_installed,
    create_rom, engine, cmd_bind, cmd_ret, get_system_partition, stat,
    mkdir_recursive, log.

Ltac cmd_cbn :=
  cbn -[ensure_partitions_mounted backup_rom restore_rom parse_targets_string
        is_valid_backup_name backup_options restore_options line
        backup_usage_text restore_usage_text Z.eqb append].

Ltac cmd_proc := cmd_calls; cmd_cbn; repeat (unfold_tests; run_step; cmd_cbn).

Lemma find_skip {A : Type} (f : A -> bool) (l r : list A) :
  Forall (fun x => f x = false) l -> List.find f (l ++ r) = List.find f r.
Proof.
  induction 1 as [|x l Hx _ IH]; [reflexivity|]. cbn. now rewrite Hx.
Qed.

Lemma last_event_snoc (l : list CmdEvent) (e : CmdEvent) :
  last_event (l ++ [e]) = Some e.
Proof. unfold last_event. now rewrite rev_app_distr. Qed.

Lemma last_event_cons (a b : CmdEvent) (l : list CmdEvent) :
  last_event (a :: b :: l) = last_event (b :: l).
Proof.
  unfold last_event. cbn [rev].
  destruct (rev l ++ [b])%list eqn:E; [|reflexivity].
  now apply app_eq_nil in E.
Qed.

Lemma last_event_app (l : list CmdEvent) (b : CmdEvent) (r : list CmdEvent) :
  last_event (l ++ b :: r) = last_event (b :: r).
Proof.
  induction l as [|a l IH]; [reflexivity|].
  destruct l; cbn [app] in *; rewrite last_event_cons; exact IH.
Qed.

Lemma last_event_cons_app (a : CmdEvent) (l : list CmdEvent) (b : CmdEvent)
    (r : list CmdEvent) :
  last_event (a :: l ++ b :: r) = last_event (b :: r).
Proof. exact (last_event_app (a :: l) b r). Qed.

Ltac last_of_trace :=
  repeat first [ rewrite last_event_cons_app
               | rewrite last_event_app
               | rewrite last_event_cons ];
  try change (last_event [?e]) with (Some e).

(** The events of the partition check change nothing and, but for the
    question about the system partition, are not the engine's; a check that
    passes prints nothing, one that fails ends with its complaint. *)
Lemma ensure_partitions_mounted_quiet (cenv : CmdEnv) (h : list CmdEvent) :
  let run := ensure_partitions_mounted cenv h in
  Forall (fun ce => changes_something ce = false) (snd run)
  /\ Forall (fun ce => match ce with
                       | CmdEngine e => exists p, e = EvGetSystemPartition p
                       | _ => True
                       end) (snd run)
  /\ (fst run = true -> Forall (fun ce => is_fprintf ce = false) (snd run))
  /\ (fst run = false ->
      exists which, In which ["System"; "Cache"; "Data"]
                    /\ last_event (snd run) = Some (complaint which)).
Proof.
  cbv zeta. unfold ensure_partitions_mounted, empty_or_not_mounted.
  cmd_calls. cbn.
  repeat match goal with
         | |- context [empty ?p] => destruct (empty p); cbn
         | |- context [cmd_is_mounted ?e ?hh ?p] =>
             destruct (cmd_is_mounted e hh p); cbn
         end;
    (split; [repeat constructor|]);
    (split; [repeat first [constructor | eexists; reflexivity]|]);
    (split; [intros; first [discriminate | repeat constructor]|]);
    intros; try discriminate;
    first [ exists "System"; split; [cbn; tauto | reflexivity]
          | exists "Cache"; split; [cbn; tauto | reflexivity]
          | exists "Data"; split; [cbn; tauto | reflexivity] ].
Qed.

Lemma restore_rom_starts (K : Constants) (env : Env) (rom : Rom)
    (dir : string) (targets : Z) (h : list Event) :
  targets <> 0 ->
  exists r rest,
    snd (restore_rom K env rom dir targets h)
    = (selection_log "Restoring:" rom dir targets
       ++ EvMkdirRecursive (MULTIBOOT_DIR K ++ "/" ++ id rom) mode_0775 r
       :: rest)%list.
Proof.
  intros Hnz. rewrite restore_rom_refines by exact Hnz. cbv zeta.
  unfold restore_coordinator. cbv zeta.
  unfold bind at 1. unfold mkdir_recursive at 1.
  match goal with
  | |- context [let (_, _) := (let (_, _) := ?t in _) in _] =>
      destruct t as [p e2]
  end.
  do 2 eexists. cbn [snd app]. reflexivity.
Qed.

(** *** The option loops *)

Ltac option_case c :=
  repeat match goal with
         | |- context [Ascii.eqb c ?k] =>
             let E := fresh "E" in
             destruct (Ascii.eqb c k) eqn:E;
             [apply Ascii.eqb_eq in E; subst c; cbn|]
         end.

Lemma loops_computed (opts : list Opt) (o : Options) :
  backup_options opts o
  = match first_other backup_stored opts with
    | Some other => stops_on other
    | None => ParsedOk (stored_options opts o)
    end
  /\ restore_options opts o
     = match first_other restore_stored opts with
       | Some other => stops_on other
       | None =>
           ParsedOk (mkOptions (romid (stored_options opts o))
                       (targets_str (stored_options opts o))
                       (name (stored_options opts o))
                       (backupdir (stored_options opts o)) (force o))
       end.
Proof.
  split; revert o; induction opts as [|[c v] opts IH]; intros o.
  - destruct o. unfold stored_options. cbn. now rewrite orb_false_r.
  - cbn [backup_options]. rewrite !IH. unfold first_other.
    cbn [List.find]. set (rest := List.find _ opts). clearbody rest.
    unfold option_among, backup_stored, stops_on, stored_options, last_optarg.
    cbn [existsb fst snd fold_left romid targets_str name backupdir force].
    option_case c; destruct rest; cbn; rewrite ?orb_true_r;
      repeat match goal with
             | H : Ascii.eqb _ _ = _ |- _ => rewrite H; clear H
             end;
      reflexivity.
  - destruct o. reflexivity.
  - cbn [restore_options]. rewrite !IH. unfold first_other.
    cbn [List.find]. set (rest := List.find _ opts). clearbody rest.
    unfold option_among, restore_stored, stops_on, stored_options,
      last_optarg.
    cbn [existsb fst snd fold_left romid targets_str name backupdir force].
    option_case c; destruct rest; cbn; rewrite ?orb_true_r;
      repeat match goal with
             | H : Ascii.eqb _ _ = _ |- _ => rewrite H; clear H
             end;
      reflexivity.
Qed.

(** X19: what the option loops compute.  Both loops stop at the first answer
    they do not store, with the usage text on stdout for [-h] and failure
    for anything else; [-f] is stored by the backup only.  When every answer
    is stored, each variable holds the argument of the last occurrence of
    its option, or its default, and [force] is set when [-f] occurred. *)
Theorem option_loops (opts : list Opt) (o : Options) :
  backup_options opts o
  = match first_other backup_stored opts with
    | Some other => stops_on other
    | None => ParsedOk (stored_options opts o)
    end
  /\ restore_options opts o
     = match first_other restore_stored opts with
       | Some other => stops_on other
       | None =>
           ParsedOk (mkOptions (romid (stored_options opts o))
                       (targets_str (stored_options opts o))
                       (name (stored_options opts o))
                       (backupdir (stored_options opts o)) (force o))
       end.
Proof. exact (loops_computed opts o). Qed.

(** Facts about the partition check of the run at hand. *)
Ltac partition_check_facts :=
  match goal with
  | H : ensure_partitions_mounted ?cenv ?hh = _ |- _ =>
      let Q := fresh "Q" in
      pose proof (ensure_partitions_mounted_quiet cenv hh) as Q;
      cbv zeta in Q; rewrite H in Q; cbn [fst snd] in Q;
      destruct Q as (Qchange & Qengine & Qprint & Qlast)
  | _ => idtac
  end.

Ltac first_change H :=
  cbn [List.find changes_something] in H;
  try (rewrite find_skip in H by assumption;
       cbn [List.find changes_something] in H).

Ltac in_trace :=
  solve [repeat first [left; reflexivity | apply in_or_app; right | right]].

Ltac quiet_prefix :=
  repeat first [ assumption
               | apply Forall_nil
               | apply Forall_cons; [reflexivity|]
               | apply Forall_app; split; [auto|] ].

Ltac validated :=
  repeat match goal with
         | H : (_ =? 0) = true |- _ => apply Z.eqb_eq in H
         | H : (_ =? 0) = false |- _ => apply Z.eqb_neq in H
         | H : empty _ = false |- _ => apply empty_false in H
         end.

(** X16: [backup_main] checks before it changes anything.  The first thing a
    run changes is the backup directory it makes, and by then the options
    were read to the end, no operand was left, the ROM ID was given, the
    targets and the name were valid, nothing had been printed, the ROM had
    been found installed, and, unless [-f] was given, the directory had been
    looked up and not found. *)
Theorem backup_main_validates_first (KC : CmdConstants) (cenv : CmdEnv)
    (opts : list Opt) (operands : Z) (h : list CmdEvent) (e : CmdEvent) :
  List.find changes_something (snd (backup_main KC cenv opts operands h))
  = Some e ->
  exists now o r pre post,
    backup_options opts (backup_defaults KC now) = ParsedOk o
    /\ operands = 0
    /\ romid o <> ""
    /\ parse_targets_string (targets_str o) <> 0
    /\ is_valid_backup_name (name o) = true
    /\ (exists rom, In (CmdFindInstalled (romid o) (Some rom)) pre)
    /\ (force o = false ->
        exists sb, stat_ok sb = false
                   /\ In (CmdEngine (EvStat (backupdir o ++ "/" ++ name o) sb))
                        pre)
    /\ Forall (fun ce => is_fprintf ce = false) pre
    /\ e = CmdEngine (EvMkdirRecursive (backupdir o ++ "/" ++ name o)
                        mode_0755 r)
    /\ snd (backup_main KC cenv opts operands h) = (pre ++ e :: post)%list.
Proof.
  cases_of_cmd (backup_main KC cenv opts operands h).
  unfold backup_main, backup_defaults. cmd_proc.
  all: intros <-; cbn [snd]; intros Hfind; partition_check_facts;
    first_change Hfind; try discriminate Hfind.
  all: injection Hfind as <-; validated.
  all: match goal with
       | Ho : backup_options _ (mkOptions _ _ ?now _ _) = ParsedOk ?o |- _ =>
           exists now, o
       end.
  all: eexists.
  all: match goal with
       | |- context [(?a :: ?l ++ ?b :: ?c
                      :: CmdEngine (EvMkdirRecursive ?p ?m ?r) :: ?post)%list] =>
           exists (a :: l ++ [b; c])%list, post
       | |- context [(?a :: ?l ++ ?b
                      :: CmdEngine (EvMkdirRecursive ?p ?m ?r) :: ?post)%list] =>
           exists (a :: l ++ [b])%list, post
       end.
  all: repeat match goal with |- _ /\ _ => split end;
    try assumption; try reflexivity.
  all: first
         [ eexists; in_trace
         | intros Hforce;
           first [ congruence
                 | match goal with
                   | |- context [EvStat _ ?sb] => exists sb
                   end;
                   split; [reflexivity | in_trace] ]
         | solve [quiet_prefix]
         | cbn [app]; rewrite <- app_assoc; reflexivity ].
Qed.

Lemma backup_main_validates_first_witness :
  let cenv :=
    sample_cmd_env (Some "2015.06.01-12.00.00") true
      ["/data/media/0/MultiBoot/backups/2015.06.01-12.00.00"] [] in
  let run := backup_main sample_cmd_constants cenv [("r"%char, "dual")] 0 [] in
  List.find changes_something (snd run)
  = Some (CmdEngine
            (EvMkdirRecursive
               "/data/media/0/MultiBoot/backups/2015.06.01-12.00.00"
               mode_0755 MkdirOk))
  /\ exists now o,
       backup_options [("r"%char, "dual")]
         (backup_defaults sample_cmd_constants now)
       = ParsedOk o
       /\ is_valid_backup_name (name o) = true.
Proof.
  assert (H : List.find changes_something
                (snd (backup_main sample_cmd_constants
                        (sample_cmd_env (Some "2015.06.01-12.00.00") true
                           ["/data/media/0/MultiBoot/backups/2015.06.01-12.00.00"]
                           [])
                        [("r"%char, "dual")] 0 []))
              = Some (CmdEngine
                        (EvMkdirRecursive
                           "/data/media/0/MultiBoot/backups/2015.06.01-12.00.00"
                           mode_0755 MkdirOk))) by reflexivity.
  split; [exact H|].
  destruct (backup_main_validates_first _ _ _ _ _ _ H)
    as (now & o & r & pre & post & Ho & _ & _ & _ & Hname & _).
  exists now, o. split; [exact Ho | exact Hname].
Defined.

Lemma selection_log_quiet (title : string) (rom : Rom) (dir : string)
    (targets : Z) :
  Forall (fun ce => changes_something ce = false)
    (map CmdEngine (selection_log title rom dir targets))
  /\ Forall (fun ce => is_fprintf ce = false)
       (map CmdEngine (selection_log title rom dir targets)).
Proof.
  pose proof (selection_log_is_log title rom dir targets) as H.
  induction H as [|e l He _ [IH1 IH2]]; [split; constructor|].
  destruct e; try contradiction. split; constructor; auto.
Qed.

(** X17: [restore_main] checks before it changes anything.  The first thing
    a run changes is the directory of the ROM it makes, and by then the
    options were read to the end, no operand was left, the ROM ID and the
    name were given, the targets and the name were valid, nothing had been
    printed, the ROM had been created from its ID, and the backup directory
    had been looked up and found. *)
Theorem restore_main_validates_first (K : Constants) (KC : CmdConstants)
    (cenv : CmdEnv) (opts : list Opt) (operands : Z) (h : list CmdEvent)
    (e : CmdEvent) :
  List.find changes_something (snd (restore_main K KC cenv opts operands h))
  = Some e ->
  exists o rom r pre post,
    restore_options opts (restore_defaults KC) = ParsedOk o
    /\ operands = 0
    /\ romid o <> ""
    /\ name o <> ""
    /\ parse_targets_string (targets_str o) <> 0
    /\ is_valid_backup_name (name o) = true
    /\ In (CmdCreateRom (romid o) (Some rom)) pre
    /\ In (CmdEngine (EvStat (backupdir o ++ "/" ++ name o) StatOk)) pre
    /\ Forall (fun ce => is_fprintf ce = false) pre
    /\ e = CmdEngine (EvMkdirRecursive (MULTIBOOT_DIR K ++ "/" ++ id rom)
                        mode_0775 r)
    /\ snd (restore_main K KC cenv opts operands h) = (pre ++ e :: post)%list.
Proof.
  cases_of_cmd (restore_main K KC cenv opts operands h).
  unfold restore_main, restore_defaults. cmd_proc.
  all: intros <-; cbn [snd]; intros Hfind; partition_check_facts;
    first_change Hfind; try discriminate Hfind.
  all: validated.
  all: match goal with
       | H : restore_rom ?K ?env ?rom ?dir ?targets ?hh = (_, ?l0),
         Hnz : ?targets <> 0 |- _ =>
           destruct (restore_rom_starts K env rom dir targets hh Hnz)
             as (made & rest & Hstart);
           rewrite H in Hstart; cbn [snd] in Hstart; subst l0;
           destruct (selection_log_quiet "Restoring:" rom dir targets)
             as [Bchange Bprint];
           rewrite map_app, <- app_assoc in Hfind |- *;
           rewrite find_skip in Hfind by exact Bchange;
           cbn [map app List.find changes_something] in Hfind |- *;
           injection Hfind as <-;
           match goal with
           | Ho : restore_options _ _ = ParsedOk ?o |- _ => exists o, rom, made
           end
       end.
  all: match goal with
       | |- context [(?l ++ ?b :: ?c :: ?banner
                      ++ CmdEngine (EvMkdirRecursive ?p ?m ?r) :: ?post)%list] =>
           exists (l ++ b :: c :: banner)%list, post
       end.
  all: repeat match goal with |- _ /\ _ => split end;
    try assumption; try reflexivity.
  all: first
         [ in_trace
         | solve [quiet_prefix]
         | rewrite <- app_assoc; reflexivity ].
Qed.

Lemma restore_main_validates_first_witness :
  let cenv := sample_cmd_env None true [] [] in
  let opts := [("r"%char, "dual"); ("n"%char, "b1")] in
  let run := restore_main sample_constants sample_cmd_constants cenv opts 0 [] in
  List.find changes_something (snd run)
  = Some (CmdEngine
            (EvMkdirRecursive "/data/media/0/MultiBoot/dual" mode_0775
               MkdirOk))
  /\ exists o,
       restore_options opts (restore_defaults sample_cmd_constants)
       = ParsedOk o
       /\ name o <> "".
Proof.
  assert (H : List.find changes_something
                (snd (restore_main sample_constants sample_cmd_constants
                        (sample_cmd_env None true [] [])
                        [("r"%char, "dual"); ("n"%char, "b1")] 0 []))
              = Some (CmdEngine
                        (EvMkdirRecursive "/data/media/0/MultiBoot/dual"
                           mode_0775 MkdirOk))) by reflexivity.
  split; [exact H|].
  destruct (restore_main_validates_first _ _ _ _ _ _ _ H)
    as (o & rom & r & pre & post & Ho & _ & _ & Hname & _).
  exists o. split; [exact Ho | exact Hname].
Defined.

Lemma last_event_after (a : CmdEvent) (l : list CmdEvent) (e : CmdEvent) :
  last_event l = Some e -> last_event (a :: l) = Some e.
Proof.
  destruct l as [|b l]; [discriminate|]. now rewrite last_event_cons.
Qed.

Ltac last_in H :=
  repeat first [ rewrite last_event_cons_app in H
               | rewrite last_event_app in H
               | rewrite last_event_cons in H ];
  unfold last_event in H; cbn [rev app] in H.

Ltac success_end :=
  unfold ends_with; eexists;
  (split; [|last_of_trace; reflexivity]);
  in_trace.

Ltac no_success_end Hin Hlast :=
  try match goal with
      | Q : false = false -> exists _, _ |- _ =>
          destruct (Q eq_refl) as (which & Hwhich & Hcomplaint);
          match type of Hlast with
          | last_event (?a :: ?l) = _ =>
              rewrite (last_event_after a l _ Hcomplaint) in Hlast
          | last_event ?l = _ => rewrite Hcomplaint in Hlast
          end;
          cbn [In] in Hwhich;
          repeat match goal with
                 | H : _ \/ _ |- _ => destruct H
                 | H : False |- _ => destruct H
                 end;
          subst which
      end;
  try last_in Hlast;
  injection Hlast as <-;
  cbn [In backup_success_ends restore_success_ends] in Hin;
  repeat match goal with
         | H : _ \/ _ |- _ => destruct H
         | H : False |- _ => destruct H
         end;
  match goal with
  | H : _ = _ |- _ => cbv [complaint line append] in H; discriminate H
  end.

Ltac exit_branch :=
  intros <-; cbn [fst snd]; rewrite ?app_nil_r; partition_check_facts;
  (split; [first [left; reflexivity | right; reflexivity]|]);
  (split;
   [ intros Hc;
     first [ cbv in Hc; discriminate Hc | success_end ]
   | intros (x & Hin & Hlast);
     first [ reflexivity | exfalso; no_success_end Hin Hlast ] ]).

(** X18: the exit status.  Both commands return 0 or 1.  [restore_main]
    returns 0 exactly when it ends with the usage text on stdout or with the
    line that says the restore finished.  [backup_main] returns 0 in the same
    two cases and in a third: when the time cannot be formatted it prints
    the error on stderr and still returns 0. *)
Theorem main_exit_status (K : Constants) (KC : CmdConstants) (cenv : CmdEnv)
    (opts : list Opt) (operands : Z) (h : list CmdEvent) :
  let b := backup_main KC cenv opts operands h in
  let r := restore_main K KC cenv opts operands h in
  ((fst b = EXIT_SUCCESS \/ fst b = EXIT_FAILURE)
   /\ (fst b = EXIT_SUCCESS <-> ends_with (backup_success_ends KC) (snd b)))
  /\ ((fst r = EXIT_SUCCESS \/ fst r = EXIT_FAILURE)
      /\ (fst r = EXIT_SUCCESS <-> ends_with (restore_success_ends KC) (snd r))).
Proof.
  cbv zeta. split.
  - cases_of_cmd (backup_main KC cenv opts operands h).
    unfold backup_main. cmd_proc.
    all: exit_branch.
  - cases_of_cmd (restore_main K KC cenv opts operands h).
    unfold restore_main. cmd_proc.
    all: exit_branch.
Qed.

(** *** The engine under the commands *)

Ltac same_options :=
  unfold backup_defaults, restore_defaults in *;
  repeat match goal with
         | H : Some ?a = Some ?b |- _ =>
             assert (a = b) by congruence; clear H; subst a
         | H : ParsedOk ?a = ParsedOk ?b |- _ =>
             assert (a = b) by congruence; clear H; subst a
         | H1 : ?x = Some ?a, H2 : ?x = Some ?b |- _ =>
             tryif constr_eq a b then fail else
               (assert (a = b) by congruence; subst a; clear H1)
         | H1 : ?x = ParsedOk ?a, H2 : ?x = ParsedOk ?b |- _ =>
             tryif constr_eq a b then fail else
               (assert (a = b) by congruence; subst a; clear H1)
         end.

Ltac of_the_rom :=
  match goal with
  | H : ?run = (_, ?l0) |- Forall _ (map CmdEngine ?l0 ++ _)%list =>
      apply Forall_app; split;
      [ let Hrom := fresh "Hrom" in
        lazymatch run with
        | backup_rom ?env ?rom ?dir ?t ?hh =>
            pose proof (backup_rom_emits env rom dir t hh) as Hrom
        | restore_rom ?K ?env ?rom ?dir ?t ?hh =>
            pose proof (restore_rom_emits K env rom dir t hh) as Hrom
        end;
        rewrite H in Hrom; cbn [snd] in Hrom;
        apply Forall_map; eapply Forall_impl; [|exact Hrom];
        cbv beta
      |]
  end.

Ltac confined leaf :=
  repeat first
    [ apply Forall_nil
    | apply Forall_cons; [leaf|]
    | match goal with
      | Q : Forall _ ?l |- Forall _ (?l ++ _)%list =>
          apply Forall_app; split;
          [ eapply Forall_impl; [|exact Q];
            intros [] ?; solve [leaf | exact I]
          |]
      end ].

(** X20: what the engine does under [backup_main].  For the options the
    loop ends with, every engine event of a run is the question about the
    system partition, the making of the backup directory [backupdir/name],
    or an event of the ROM backup of the ROM found installed, with this
    directory as its bundle. *)
Theorem backup_main_confined (KC : CmdConstants) (cenv : CmdEnv)
    (opts : list Opt) (operands : Z) (h : list CmdEvent) (now : string)
    (o : Options) :
  cmd_format_time cenv h "%Y.%m.%d-%H.%M.%S" = Some now ->
  backup_options opts (backup_defaults KC now) = ParsedOk o ->
  let evs := snd (backup_main KC cenv opts operands h) in
  Forall (backup_main_event (romid o) (backupdir o ++ "/" ++ name o) evs) evs.
Proof.
  intros Hnow Hopts. cbv zeta.
  cases_of_cmd (backup_main KC cenv opts operands h).
  unfold backup_main. cmd_proc.
  all: intros <-; cbn [snd]; partition_check_facts; try congruence;
    same_options.
  all: confined ltac:(first
         [ exact I
         | left; eexists; reflexivity
         | left; assumption
         | right; left; eexists; reflexivity
         | right; right;
           match goal with
           | H : cmd_find_installed _ _ _ = Some ?rom |- _ => exists rom
           end;
           split; [in_trace | exact I] ]).
  all: of_the_rom.
  all: first
         [ intros a Ha; right; right;
           match goal with
           | H : cmd_find_installed _ _ _ = Some ?rom |- _ => exists rom
           end;
           split; [in_trace | exact Ha]
         | apply Forall_cons; [|apply Forall_nil];
           right; right;
           match goal with
           | H : cmd_find_installed _ _ _ = Some ?rom |- _ => exists rom
           end;
           split; [in_trace | exact I] ].
Qed.

Lemma backup_main_confined_witness :
  let cenv :=
    sample_cmd_env (Some "2015.06.01-12.00.00") true
      ["/data/media/0/MultiBoot/backups/b1"] [] in
  let opts := [("r"%char, "dual"); ("n"%char, "b1")] in
  let evs := snd (backup_main sample_cmd_constants cenv opts 0 []) in
  Forall (backup_main_event "dual" "/data/media/0/MultiBoot/backups/b1" evs)
    evs.
Proof.
  exact (backup_main_confined sample_cmd_constants
           (sample_cmd_env (Some "2015.06.01-12.00.00") true
              ["/data/media/0/MultiBoot/backups/b1"] [])
           [("r"%char, "dual"); ("n"%char, "b1")] 0 []
           "2015.06.01-12.00.00"
           (mkOptions "dual" "all" "b1" "/data/media/0/MultiBoot/backups"
              false)
           eq_refl eq_refl).
Defined.

(** X21: what the engine does under [restore_main].  For the options the
    loop ends with, every engine event of a run is the question about the
    system partition, the look at the backup directory, or an event of the
    ROM restore of the ROM created from the ROM ID, with [backupdir/name] as
    its bundle. *)
Theorem restore_main_confined (K : Constants) (KC : CmdConstants)
    (cenv : CmdEnv) (opts : list Opt) (operands : Z) (h : list CmdEvent)
    (o : Options) :
  restore_options opts (restore_defaults KC) = ParsedOk o ->
  let evs := snd (restore_main K KC cenv opts operands h) in
  Forall (restore_main_event K (romid o) (backupdir o ++ "/" ++ name o) evs)
    evs.
Proof.
  intros Hopts. cbv zeta.
  cases_of_cmd (restore_main K KC cenv opts operands h).
  unfold restore_main. cmd_proc.
  all: intros <-; cbn [snd]; partition_check_facts; try congruence;
    same_options.
  all: confined ltac:(first
         [ exact I
         | left; assumption
         | right;
           match goal with
           | H : cmd_create_rom _ _ _ = Some ?rom |- _ => exists rom
           end;
           split; [in_trace | exact I] ]).
  all: of_the_rom.
  all: first
         [ intros a Ha; right;
           match goal with
           | H : cmd_create_rom _ _ _ = Some ?rom |- _ => exists rom
           end;
           split; [in_trace | exact Ha]
         | apply Forall_cons; [|apply Forall_nil];
           right;
           match goal with
           | H : cmd_create_rom _ _ _ = Some ?rom |- _ => exists rom
           end;
           split; [in_trace | exact I] ].
Qed.

Lemma restore_main_confined_witness :
  let cenv := sample_cmd_env None true [] [] in
  let opts := [("r"%char, "dual"); ("n"%char, "b1")] in
  let evs :=
    snd (restore_main sample_constants sample_cmd_constants cenv opts 0 []) in
  Forall (restore_main_event sample_constants "dual"
            "/data/media/0/MultiBoot/backups/b1" evs)
    evs.
Proof.
  exact (restore_main_confined sample_constants sample_cmd_constants
           (sample_cmd_env None true [] [])
           [("r"%char, "dual"); ("n"%char, "b1")] 0 []
           (mkOptions "dual" "all" "b1" "/data/media/0/MultiBoot/backups"
              false)
           eq_refl).
Defined.


